(** * socialbondpay-backend: the payment backend's two HTTP handlers

    The repository holds the same Express application twice: [server.js]
    (ES modules, body parsed by [bodyParser.json()] before the handlers run)
    and a CommonJS copy ([src/unnamed/part_000], whose webhook handler is
    written for a raw body, behind [express.json()] and [bodyParser.raw]).
    Both are embedded below, handler by handler, with the body parsers in
    front of the webhook handlers, over a model of the JavaScript values they
    compute with:

    - [Crypto]: SHA-256 and HMAC-SHA256 ([crypto.createHmac]), hex digests;
    - [Num]: IEEE binary64 numbers, [Math.round], decimal reading and printing;
    - [JS]: values, [ToBoolean], [ToPrimitive], [ToNumber], property access,
      [||] and [?.], and the exceptions these throw;
    - [JSON]: [JSON.parse] and [JSON.stringify];
    - [Store]: the [payments] table and its [INSERT .. ON CONFLICT DO NOTHING];
    - [CJS] and [ESM]: the handlers of the two files.

    Text is represented by its UTF-8 bytes (a [string] is a byte sequence),
    and request bodies are taken to be well-formed UTF-8. *)

From Stdlib Require Import ZArith List String Ascii Bool Lia.
From Stdlib Require Import Floats.SpecFloat.
Import ListNotations.
Open Scope Z_scope.

#[local] Set Warnings "-register-all".
#[local] Set Warnings "-automation".
#[local] Set Warnings "-default".

(** ** Text helpers *)

Module Text.

Definition chars (s : string) : list ascii := list_ascii_of_string s.
Definition text (l : list ascii) : string := string_of_list_ascii l.
Definition code (c : ascii) : Z := Z.of_nat (nat_of_ascii c).
Definition char (n : Z) : ascii := ascii_of_nat (Z.to_nat n).

Definition dquote : ascii := char 34.

(** JSON literals are written with apostrophes in this file; [q] turns every
    apostrophe into a double quote. *)
Definition q (s : string) : string :=
  text (List.map (fun c => if code c =? 39 then dquote else c) (chars s)).

Fixpoint strip_prefix (p l : list ascii) : option (list ascii) :=
  match p, l with
  | [], _ => Some l
  | a :: p', b :: l' => if Ascii.eqb a b then strip_prefix p' l' else None
  | _ :: _, [] => None
  end.

(** decimal digits of a non-negative integer, most significant first *)
Fixpoint digits_fuel (fuel : nat) (n : Z) (acc : list ascii) : list ascii :=
  match fuel with
  | O => acc
  | S fuel' =>
      let acc' := char (48 + n mod 10) :: acc in
      if n <? 10 then acc' else digits_fuel fuel' (n / 10) acc'
  end.

Definition digits (n : Z) : list ascii :=
  digits_fuel (S (Z.to_nat (Z.log2 n))) n [].

Definition string_of_Z (n : Z) : string :=
  text (if n <? 0 then "-"%char :: digits (- n) else digits n).

End Text.

(** ** [crypto]: SHA-256 (FIPS 180-4) and HMAC (RFC 2104) over bytes *)

Module Crypto.

Definition bytes := list Z.

Definition bytes_of_string (s : string) : bytes := List.map Text.code (Text.chars s).

Definition w32 (x : Z) : Z := x mod 4294967296.
Definition add32 (x y : Z) : Z := w32 (x + y).
Definition rotr (n x : Z) : Z := Z.lor (Z.shiftr x n) (w32 (Z.shiftl x (32 - n))).
Definition shr (n x : Z) : Z := Z.shiftr x n.
Definition not32 (x : Z) : Z := 4294967295 - x.

Definition Ch (x y z : Z) : Z := Z.lxor (Z.land x y) (Z.land (not32 x) z).
Definition Maj (x y z : Z) : Z :=
  Z.lxor (Z.lxor (Z.land x y) (Z.land x z)) (Z.land y z).
Definition Sigma0 (x : Z) : Z := Z.lxor (Z.lxor (rotr 2 x) (rotr 13 x)) (rotr 22 x).
Definition Sigma1 (x : Z) : Z := Z.lxor (Z.lxor (rotr 6 x) (rotr 11 x)) (rotr 25 x).
Definition sigma0 (x : Z) : Z := Z.lxor (Z.lxor (rotr 7 x) (rotr 18 x)) (shr 3 x).
Definition sigma1 (x : Z) : Z := Z.lxor (Z.lxor (rotr 17 x) (rotr 19 x)) (shr 10 x).

(** the first 64 primes *)
Definition is_prime (n : Z) : bool :=
  (2 <=? n) && forallb (fun d => negb (n mod d =? 0) || (n <=? d))
                       (List.map Z.of_nat (seq 2 16)).

Definition primes : list Z :=
  Eval vm_compute in filter is_prime (List.map Z.of_nat (seq 2 310)).

(** integer cube root by bisection, [lo^3 <= n < hi^3] *)
Fixpoint root3 (fuel : nat) (lo hi n : Z) : Z :=
  match fuel with
  | O => lo
  | S fuel' =>
      let mid := (lo + hi) / 2 in
      if mid * mid * mid <=? n then root3 fuel' mid hi n else root3 fuel' lo mid n
  end.

(** the round constants: the first 32 bits of the fractional parts of the
    cube roots of the first 64 primes *)
Definition K256 : list Z :=
  Eval vm_compute in
    List.map (fun p => w32 (root3 40 0 (2 ^ 36) (p * 2 ^ 96))) primes.

(** the initial hash value: the same of the square roots of the first 8 primes *)
Definition H0 : list Z :=
  Eval vm_compute in
    List.map (fun p => w32 (Z.sqrt (p * 2 ^ 64))) (firstn 8 primes).

(** big-endian encoding of [x] on [n] bytes, and back *)
Fixpoint be_bytes (n : nat) (x : Z) : bytes :=
  match n with
  | O => []
  | S n' => be_bytes n' (x / 256) ++ [x mod 256]
  end.

Definition be_word (bs : bytes) : Z :=
  fold_left (fun acc b => acc * 256 + b) bs 0.

(** the message, a 1 bit, zeros up to 56 mod 64 bytes, the bit length on 8 bytes *)
Definition pad (msg : bytes) : bytes :=
  let len := Z.of_nat (List.length msg) in
  msg ++ [128] ++ repeat 0 (Z.to_nat ((55 - len) mod 64)) ++ be_bytes 8 (8 * len).

Fixpoint chunks (n : nat) (fuel : nat) (bs : bytes) : list bytes :=
  match fuel with
  | O => []
  | S fuel' =>
      match bs with
      | [] => []
      | _ => firstn n bs :: chunks n fuel' (skipn n bs)
      end
  end.

(** message schedule; the list holds W[t-1], W[t-2], ... (latest first) *)
Fixpoint schedule (n : nat) (rev_w : list Z) : list Z :=
  match n with
  | O => rev_w
  | S n' =>
      let w := add32 (add32 (sigma1 (nth 1 rev_w 0)) (nth 6 rev_w 0))
                     (add32 (sigma0 (nth 14 rev_w 0)) (nth 15 rev_w 0)) in
      schedule n' (w :: rev_w)
  end.

Definition block_words (block : bytes) : list Z :=
  List.map be_word (chunks 4 16 block).

Record regs := { ra : Z; rb : Z; rc : Z; rd : Z; re : Z; rf : Z; rg : Z; rh : Z }.

Definition round (r : regs) (kw : Z * Z) : regs :=
  let t1 := add32 (add32 (add32 (rh r) (Sigma1 (re r)))
                         (add32 (Ch (re r) (rf r) (rg r)) (fst kw))) (snd kw) in
  let t2 := add32 (Sigma0 (ra r)) (Maj (ra r) (rb r) (rc r)) in
  {| ra := add32 t1 t2; rb := ra r; rc := rb r; rd := rc r;
     re := add32 (rd r) t1; rf := re r; rg := rf r; rh := rg r |}.

Definition regs_of (h : list Z) : regs :=
  {| ra := nth 0 h 0; rb := nth 1 h 0; rc := nth 2 h 0; rd := nth 3 h 0;
     re := nth 4 h 0; rf := nth 5 h 0; rg := nth 6 h 0; rh := nth 7 h 0 |}.

Definition compress (h : list Z) (block : bytes) : list Z :=
  let w := rev (schedule 48 (rev (block_words block))) in
  let r := fold_left round (combine K256 w) (regs_of h) in
  List.map (fun p => add32 (fst p) (snd p))
    (combine h [ra r; rb r; rc r; rd r; re r; rf r; rg r; rh r]).

Definition sha256 (msg : bytes) : bytes :=
  let p := pad msg in
  flat_map (be_bytes 4) (fold_left compress (chunks 64 (List.length p) p) H0).

Definition xor_pad (c : Z) (key : bytes) : bytes :=
  List.map (fun b => Z.lxor b c) key.

Definition hmac_key (key : bytes) : bytes :=
  let k := if 64 <? Z.of_nat (List.length key) then sha256 key else key in
  k ++ repeat 0 (64 - List.length k)%nat.

Definition hmac_sha256 (key msg : bytes) : bytes :=
  let k := hmac_key key in
  sha256 (xor_pad 0x5c k ++ sha256 (xor_pad 0x36 k ++ msg)).

Definition hex_digit (n : Z) : ascii :=
  Text.char (if n <? 10 then 48 + n else 87 + n).

(** [digest("hex")]: two lower-case hexadecimal digits per byte *)
Definition hex (bs : bytes) : string :=
  Text.text (flat_map (fun b => [hex_digit (b / 16); hex_digit (b mod 16)]) bs).

(** [crypto.createHmac("sha256", key).update(data).digest("hex")] *)
Definition createHmac_sha256_hex (key data : string) : string :=
  hex (hmac_sha256 (bytes_of_string key) (bytes_of_string data)).

End Crypto.

(** ** Numbers: IEEE 754 binary64 *)

Module Num.

Definition prec : Z := 53.
Definition emax : Z := 1024.

Definition number := spec_float.

Definition NaN : number := S754_nan.
Definition zero : number := S754_zero false.
Definition of_Z (z : Z) : number := binary_normalize prec emax z 0 false.

Definition mul (x y : number) : number := SFmul prec emax x y.
Definition ltb (x y : number) : bool := SFltb x y.
Definition leb (x y : number) : bool := SFleb x y.

Definition is_nan (x : number) : bool :=
  match x with S754_nan => true | _ => false end.

Definition is_zero (x : number) : bool :=
  match x with S754_zero _ => true | _ => false end.

Definition same (x y : number) : bool :=
  match x, y with
  | S754_nan, S754_nan => true
  | S754_zero a, S754_zero b => Bool.eqb a b
  | S754_infinity a, S754_infinity b => Bool.eqb a b
  | S754_finite a m e, S754_finite b m' e' => Bool.eqb a b && Pos.eqb m m' && Z.eqb e e'
  | _, _ => false
  end.

(** the value of a finite number is an integer *)
Definition is_integer (x : number) : bool :=
  match x with
  | S754_zero _ => true
  | S754_finite _ m e => (0 <=? e) || (Zpos m mod 2 ^ (- e) =? 0)
  | _ => false
  end.

(** [Math.round]: the closest integer, ties towards +Infinity; a zero result
    takes the sign of the argument *)
Definition round (x : number) : number :=
  match x with
  | S754_finite s m e =>
      if 0 <=? e then x
      else
        let d := 2 ^ (- e) in
        let r := (2 * cond_Zopp s (Zpos m) + d) / (2 * d) in
        if r =? 0 then S754_zero s else binary_normalize prec emax r 0 false
  | _ => x
  end.

(** the double nearest to [m * 10^e10] (ties to even), for [m >= 0] *)
Definition of_decimal (neg : bool) (m e10 : Z) : number :=
  match m with
  | Zpos p =>
      if 0 <=? e10 then binary_normalize prec emax (cond_Zopp neg (m * 10 ^ e10)) 0 neg
      else
        let '(q, e, l) := SFdiv_core_binary prec emax m 0 (10 ^ (- e10)) 0 in
        binary_round_aux prec emax neg q e l
  | _ => S754_zero neg
  end.

(** [m * 2^e >= 10^n] *)
Definition ge_pow10 (m e n : Z) : bool :=
  10 ^ Z.max n 0 * 2 ^ Z.max (- e) 0 <=? m * 2 ^ Z.max e 0 * 10 ^ Z.max (- n) 0.

Fixpoint climb (fuel : nat) (m e n : Z) : Z :=
  match fuel with
  | O => n
  | S fuel' => if ge_pow10 m e n then climb fuel' m e (n + 1) else n
  end.

(** the [n] with [10^(n-1) <= m * 2^e < 10^n] *)
Definition decimal_exponent (m : positive) (e : Z) : Z :=
  let b := Zpos (digits2_pos m) + e in
  climb 4 (Zpos m) e ((b - 1) * 30103 / 100000 - 1).

Fixpoint strip_zeros (fuel : nat) (c e10 : Z) : Z * Z :=
  match fuel with
  | O => (c, e10)
  | S fuel' =>
      if (c mod 10 =? 0) && (0 <? c) then strip_zeros fuel' (c / 10) (e10 + 1) else (c, e10)
  end.

(** the shortest decimal [c * 10^e10] that reads back as the positive double
    [(m, e)]: [k] digits are tried for [k = 1, 2, ..]; of two candidates the
    closer one is taken, the even one on a tie *)
Fixpoint shortest (fuel : nat) (k : Z) (m : positive) (e n : Z) : Z * Z :=
  match fuel with
  | O => (Zpos m * 2 ^ Z.max e 0, 0)
  | S fuel' =>
      let num := Zpos m * 2 ^ Z.max e 0 * 10 ^ Z.max (k - n) 0 in
      let den := 2 ^ Z.max (- e) 0 * 10 ^ Z.max (n - k) 0 in
      let lo := num / den in
      let r := num mod den in
      let ok c := same (of_decimal false c (n - k)) (S754_finite false m e) in
      let lo_first := (2 * r <? den) || ((2 * r =? den) && Z.even lo) in
      let pick :=
        match ok lo, ok (lo + 1) with
        | true, true => Some (if lo_first then lo else lo + 1)
        | true, false => Some lo
        | false, true => Some (lo + 1)
        | false, false => None
        end in
      match pick with
      | Some c => strip_zeros 20 c (n - k)
      | None => shortest fuel' (k + 1) m e n
      end
  end.

Definition zeros (n : Z) : list ascii := repeat "0"%char (Z.to_nat n).

(** [Number::toString], radix 10 *)
Definition to_string (x : number) : string :=
  match x with
  | S754_nan => "NaN"
  | S754_zero _ => "0"
  | S754_infinity s => if s then "-Infinity" else "Infinity"
  | S754_finite s m e =>
      let '(c, e10) := shortest 17 1 m e (decimal_exponent m e) in
      let ds := Text.digits c in
      let k := Z.of_nat (List.length ds) in
      let n := k + e10 in
      let body :=
        if (k <=? n) && (n <=? 21) then ds ++ zeros (n - k)
        else if (0 <? n) && (n <=? 21) then
          firstn (Z.to_nat n) ds ++ "."%char :: skipn (Z.to_nat n) ds
        else if (-6 <? n) && (n <=? 0) then
          "0"%char :: "."%char :: zeros (- n) ++ ds
        else
          let ex := (if n - 1 <? 0 then "-"%char else "+"%char)
                      :: Text.digits (Z.abs (n - 1)) in
          match ds with
          | [d] => d :: "e"%char :: ex
          | d :: rest => d :: "."%char :: rest ++ "e"%char :: ex
          | [] => []
          end in
      Text.text (if s then "-"%char :: body else body)
  end.

End Num.

(** ** JavaScript values and the coercions the handlers rely on *)

Module JS.

Inductive value :=
| VUndefined
| VNull
| VBool (b : bool)
| VNumber (x : Num.number)
| VString (s : string)
| VArray (elems : list value)
| VObject (props : list (string * value)).

(** exceptions, and computations that may throw *)
Inductive exn :=
| TypeError (message : string)
| SyntaxError (message : string)
| Rejected (message : value).

Inductive result (A : Type) :=
| Ok (a : A)
| Throw (e : exn).

Arguments Ok {A} a.
Arguments Throw {A} e.

Definition bind {A B : Type} (m : result A) (f : A -> result B) : result B :=
  match m with
  | Ok a => f a
  | Throw e => Throw e
  end.

(** [error.message] in a [catch] block *)
Definition message_of (e : exn) : value :=
  match e with
  | TypeError m => VString m
  | SyntaxError m => VString m
  | Rejected m => m
  end.

(** [ToBoolean] *)
Definition truthy (v : value) : bool :=
  match v with
  | VUndefined | VNull => false
  | VBool b => b
  | VNumber x => negb (Num.is_zero x || Num.is_nan x)
  | VString s => negb (String.eqb s "")
  | VArray _ | VObject _ => true
  end.

(** [a || b] *)
Definition or_else (a b : value) : value := if truthy a then a else b.

Definition nullish (v : value) : bool :=
  match v with
  | VUndefined | VNull => true
  | _ => false
  end.

Fixpoint lookup (k : string) (props : list (string * value)) : value :=
  match props with
  | [] => VUndefined
  | (k', v) :: rest => if String.eqb k k' then v else lookup k rest
  end.

(** whether an object has a property [k] of its own *)
Definition own (k : string) (props : list (string * value)) : bool :=
  existsb (fun p => String.eqb k (fst p)) props.

(** [v.k] for a property name [k] that no built-in prototype defines (all the
    names the handlers read are such): an own property of an object,
    [undefined] on any other value, a [TypeError] on [undefined] and [null],
    with the message Node gives it *)
Definition get (v : value) (k : string) : result value :=
  match v with
  | VUndefined => Throw (TypeError ("Cannot read properties of undefined (reading '" ++ k ++ "')"))
  | VNull => Throw (TypeError ("Cannot read properties of null (reading '" ++ k ++ "')"))
  | VObject props => Ok (lookup k props)
  | _ => Ok VUndefined
  end.

(** one property of [const { k, .. } = source]: as [v.k], except that
    [undefined] and [null] are refused in the words of a destructuring, which
    name the first property and the text [source] of the right-hand side *)
Definition destructure (source : string) (v : value) (k : string) : result value :=
  match v with
  | VUndefined =>
      Throw (TypeError ("Cannot destructure property '" ++ k ++ "' of '" ++ source
                        ++ "' as it is undefined."))
  | VNull =>
      Throw (TypeError ("Cannot destructure property '" ++ k ++ "' of '" ++ source
                        ++ "' as it is null."))
  | _ => get v k
  end.

(** [v?.k] *)
Definition get_opt (v : value) (k : string) : value :=
  match v with
  | VObject props => lookup k props
  | _ => VUndefined
  end.

(** *** [StringToNumber] *)

Definition is_digit (c : ascii) : bool := (48 <=? Text.code c) && (Text.code c <=? 57).

(** value and number of the leading decimal digits, and the rest *)
Fixpoint scan_digits (l : list ascii) (acc count : Z) : Z * Z * list ascii :=
  match l with
  | c :: l' =>
      if is_digit c then scan_digits l' (10 * acc + (Text.code c - 48)) (count + 1)
      else (acc, count, l)
  | [] => (acc, count, l)
  end.

(** an optional exponent part [e] / [E], sign, digits; [None] when an [e] is
    followed by no digit *)
Definition scan_exponent (l : list ascii) : option (Z * list ascii) :=
  match l with
  | c :: l' =>
      if (Text.code c =? 101) || (Text.code c =? 69) then
        let '(neg, l'') :=
          match l' with
          | s :: r => if Text.code s =? 45 then (true, r)
                      else if Text.code s =? 43 then (false, r) else (false, l')
          | [] => (false, l')
          end in
        let '(v, n, rest) := scan_digits l'' 0 0 in
        if n =? 0 then None else Some (if neg then - v else v, rest)
      else Some (0, l)
  | [] => Some (0, l)
  end.

(** [StrUnsignedDecimalLiteral] without [Infinity]: digits, an optional point
    and fraction, an optional exponent; the result is (mantissa, exponent of
    ten, rest) *)
Definition scan_decimal (l : list ascii) : option (Z * Z * list ascii) :=
  let '(i, ni, l1) := scan_digits l 0 0 in
  let '(m, nf, l2) :=
    match l1 with
    | c :: r => if Text.code c =? 46 then
                  let '(m, n, r') := scan_digits r i 0 in (m, Some n, r')
                else (i, None, l1)
    | [] => (i, None, l1)
    end in
  let digits_ok :=
    match nf with
    | Some n => 0 <? ni + n
    | None => 0 <? ni
    end in
  if digits_ok then
    match scan_exponent l2 with
    | Some (e, rest) => Some (m, e - match nf with Some n => n | None => 0 end, rest)
    | None => None
    end
  else None.

Definition digit_value (c : ascii) : option Z :=
  let n := Text.code c in
  if (48 <=? n) && (n <=? 57) then Some (n - 48)
  else if (97 <=? n) && (n <=? 102) then Some (n - 87)
  else if (65 <=? n) && (n <=? 70) then Some (n - 55)
  else None.

(** the digits of a [0x] / [0o] / [0b] literal, all of the input *)
Fixpoint scan_radix (radix : Z) (l : list ascii) (acc : Z) : option Z :=
  match l with
  | [] => Some acc
  | c :: l' =>
      match digit_value c with
      | Some d => if d <? radix then scan_radix radix l' (radix * acc + d) else None
      | None => None
      end
  end.

(** white space and line terminators, as UTF-8 byte sequences *)
Definition white_space : list (list Z) :=
  [ [9]; [10]; [11]; [12]; [13]; [32]; [194; 160]; [239; 187; 191];
    [225; 154; 128]; [226; 128; 128]; [226; 128; 129]; [226; 128; 130];
    [226; 128; 131]; [226; 128; 132]; [226; 128; 133]; [226; 128; 134];
    [226; 128; 135]; [226; 128; 136]; [226; 128; 137]; [226; 128; 138];
    [226; 128; 168]; [226; 128; 169]; [226; 128; 175]; [226; 129; 159];
    [227; 128; 128] ].

Fixpoint strip_any (pats : list (list ascii)) (l : list ascii) : option (list ascii) :=
  match pats with
  | [] => None
  | p :: pats' =>
      match Text.strip_prefix p l with
      | Some rest => Some rest
      | None => strip_any pats' l
      end
  end.

Fixpoint trim_left (fuel : nat) (pats : list (list ascii)) (l : list ascii) : list ascii :=
  match fuel with
  | O => l
  | S fuel' =>
      match strip_any pats l with
      | Some rest => trim_left fuel' pats rest
      | None => l
      end
  end.

Definition trim (l : list ascii) : list ascii :=
  let pats := List.map (List.map Text.char) white_space in
  let l1 := trim_left (List.length l) pats l in
  rev (trim_left (List.length l1) (List.map (@rev ascii) pats) (rev l1)).

Definition unsigned_literal (neg : bool) (l : list ascii) : Num.number :=
  if list_eq_dec ascii_dec l (Text.chars "Infinity") then S754_infinity neg
  else
    match scan_decimal l with
    | Some (m, e10, []) => Num.of_decimal neg m e10
    | _ => Num.NaN
    end.

Definition radix_literal (radix : Z) (l : list ascii) : Num.number :=
  match l with
  | [] => Num.NaN
  | _ => match scan_radix radix l 0 with
         | Some n => Num.of_Z n
         | None => Num.NaN
         end
  end.

Definition StringToNumber (s : string) : Num.number :=
  match trim (Text.chars s) with
  | [] => Num.zero
  | c :: rest =>
      let n := Text.code c in
      if n =? 45 then unsigned_literal true rest
      else if n =? 43 then unsigned_literal false rest
      else
        match rest with
        | p :: ds =>
            let k := Text.code p in
            if negb (n =? 48) then unsigned_literal false (c :: rest)
            else if (k =? 120) || (k =? 88) then radix_literal 16 ds
            else if (k =? 111) || (k =? 79) then radix_literal 8 ds
            else if (k =? 98) || (k =? 66) then radix_literal 2 ds
            else unsigned_literal false (c :: rest)
        | [] => unsigned_literal false (c :: rest)
        end
  end.

(** *** [ToString], [ToPrimitive], [ToNumber] *)

Definition join (sep : string) (parts : list string) : string :=
  match parts with
  | [] => ""
  | p :: rest => fold_left (fun acc x => (acc ++ sep ++ x)%string) rest p
  end.

(** the [TypeError] of [OrdinaryToPrimitive] when neither [valueOf] nor
    [toString] gives a primitive *)
Definition not_primitive : exn := TypeError "Cannot convert object to primitive value".

(** [ToString].  The objects and arrays here are plain ones (they come out of
    [JSON.parse]), so what [ToPrimitive] finds is this:
    - [valueOf] never gives a primitive: the inherited one returns the object,
      and an own property [valueOf] holds a JSON value, which cannot be called;
    - for an object, the inherited [toString] gives [[object Object]]; an own
      property [toString] hides it and cannot be called, and then nothing is
      left to try: a [TypeError];
    - for an array, [toString] is [join]: the elements' strings separated by
      commas, [undefined] and [null] as empty strings; an element that cannot
      be converted makes the whole conversion throw. *)
Fixpoint ToString (v : value) : result string :=
  match v with
  | VUndefined => Ok "undefined"%string
  | VNull => Ok "null"%string
  | VBool b => Ok (if b then "true" else "false")%string
  | VNumber x => Ok (Num.to_string x)
  | VString s => Ok s
  | VArray elems =>
      bind ((fix each (l : list value) : result (list string) :=
               match l with
               | [] => Ok []
               | e :: l' =>
                   bind (if nullish e then Ok EmptyString else ToString e) (fun s =>
                   bind (each l') (fun rest => Ok (s :: rest)))
               end) elems)
           (fun parts => Ok (join ","%string parts))
  | VObject props =>
      if own "toString"%string props then Throw not_primitive
      else Ok "[object Object]"%string
  end.

(** [ToNumber]; an object or an array is first made a primitive, which for
    these values is the string above, or the [TypeError] *)
Definition ToNumber (v : value) : result Num.number :=
  match v with
  | VUndefined => Ok Num.NaN
  | VNull => Ok Num.zero
  | VBool b => Ok (if b then Num.of_Z 1 else Num.zero)
  | VNumber x => Ok x
  | VString s => Ok (StringToNumber s)
  | VArray _ | VObject _ => bind (ToString v) (fun s => Ok (StringToNumber s))
  end.

(** the global [isNaN] *)
Definition isNaN (v : value) : result bool :=
  bind (ToNumber v) (fun x => Ok (Num.is_nan x)).

(** [v <= n] and [v * n] for a number [n] on the right *)
Definition le_number (v : value) (n : Num.number) : result bool :=
  bind (ToNumber v) (fun x => Ok (Num.leb x n)).
Definition mul_number (v : value) (n : Num.number) : result Num.number :=
  bind (ToNumber v) (fun x => Ok (Num.mul x n)).

(** [a || b] as a condition whose sides may throw: [b] is evaluated only when
    [a] is false *)
Definition or_test (a b : result bool) : result bool :=
  bind a (fun x => if x then Ok true else b).

End JS.

(** ** [JSON.parse] and [JSON.stringify] *)

Module JSON.

Import JS.

(** *** Objects keep their properties in JavaScript's order: array indices
    ascending, then the other keys in insertion order *)

Definition array_index (k : string) : option Z :=
  match Text.chars k with
  | [] => None
  | c :: rest =>
      let '(n, count, tl) := scan_digits (c :: rest) 0 0 in
      match tl with
      | [] => if ((Text.code c =? 48) && negb (count =? 1)) || (4294967294 <? n)
              then None else Some n
      | _ => None
      end
  end.

Fixpoint has_key (k : string) (props : list (string * value)) : bool :=
  match props with
  | [] => false
  | (k', _) :: rest => String.eqb k k' || has_key k rest
  end.

Fixpoint replace (k : string) (v : value) (props : list (string * value)) :=
  match props with
  | [] => []
  | (k', v') :: rest =>
      if String.eqb k k' then (k', v) :: rest else (k', v') :: replace k v rest
  end.

(** insertion of a new index key [i] before the first larger index or the
    first key that is no index *)
Fixpoint insert_index (i : Z) (k : string) (v : value) (props : list (string * value)) :=
  match props with
  | [] => [(k, v)]
  | (k', v') :: rest =>
      match array_index k' with
      | Some j => if j <? i then (k', v') :: insert_index i k v rest
                  else (k, v) :: props
      | None => (k, v) :: props
      end
  end.

Definition obj_set (props : list (string * value)) (k : string) (v : value) :=
  if has_key k props then replace k v props
  else match array_index k with
       | Some i => insert_index i k v props
       | None => props ++ [(k, v)]
       end.

(** *** Lexer *)

Inductive token :=
| TLBrace | TRBrace | TLBracket | TRBracket | TColon | TComma
| TString (s : string)
| TAtom (v : value).

(** a string under construction: raw bytes, and the code units of [\u] escapes *)
Inductive item := Byte (b : ascii) | Unit16 (u : Z).

Inductive lex_state :=
| LIdle
| LStr (acc : list item)
| LEsc (acc : list item)
| LUni (acc : list item) (todo : nat) (u : Z)
| LAtom (acc : list ascii).

Definition utf8 (cp : Z) : list ascii :=
  List.map Text.char
    (if cp <? 128 then [cp]
     else if cp <? 2048 then [192 + cp / 64; 128 + cp mod 64]
     else if cp <? 65536 then [224 + cp / 4096; 128 + (cp / 64) mod 64; 128 + cp mod 64]
     else [240 + cp / 262144; 128 + (cp / 4096) mod 64; 128 + (cp / 64) mod 64; 128 + cp mod 64]).

(** bytes of a finished string; an escaped surrogate pair becomes one code point *)
Fixpoint bytes_of_items (l : list item) : list ascii :=
  match l with
  | [] => []
  | Byte b :: rest => b :: bytes_of_items rest
  | Unit16 hi :: rest =>
      match rest with
      | Unit16 lo :: rest' =>
          if (55296 <=? hi) && (hi <=? 56319) && (56320 <=? lo) && (lo <=? 57343)
          then utf8 (65536 + (hi - 55296) * 1024 + (lo - 56320)) ++ bytes_of_items rest'
          else utf8 hi ++ bytes_of_items rest
      | _ => utf8 hi ++ bytes_of_items rest
      end
  end.

Definition json_number (l : list ascii) : option Num.number :=
  let '(neg, l0) :=
    match l with
    | c :: r => if Text.code c =? 45 then (true, r) else (false, l)
    | [] => (false, l)
    end in
  let '(i, ni, l1) := scan_digits l0 0 0 in
  let leading_zero :=
    match l0 with
    | c :: _ => (Text.code c =? 48) && (1 <? ni)
    | [] => false
    end in
  if (ni =? 0) || leading_zero then None
  else
    let frac :=
      match l1 with
      | c :: r => if Text.code c =? 46 then
                    let '(m, n, r') := scan_digits r i 0 in
                    if n =? 0 then None else Some (m, n, r')
                  else Some (i, 0, l1)
      | [] => Some (i, 0, l1)
      end in
    match frac with
    | Some (m, nf, l2) =>
        match scan_exponent l2 with
        | Some (e, []) => Some (Num.of_decimal neg m (e - nf))
        | _ => None
        end
    | None => None
    end.

Definition atom_value (rev_acc : list ascii) : option value :=
  let s := Text.text (rev rev_acc) in
  if String.eqb s "true" then Some (VBool true)
  else if String.eqb s "false" then Some (VBool false)
  else if String.eqb s "null" then Some VNull
  else option_map VNumber (json_number (rev rev_acc)).

Definition atom_char (c : ascii) : bool :=
  let n := Text.code c in
  is_digit c || ((97 <=? n) && (n <=? 122)) || ((65 <=? n) && (n <=? 90))
  || (n =? 43) || (n =? 45) || (n =? 46).

Definition is_ws (c : ascii) : bool :=
  let n := Text.code c in (n =? 32) || (n =? 9) || (n =? 10) || (n =? 13).

Definition punct (c : ascii) : option token :=
  let n := Text.code c in
  if n =? 123 then Some TLBrace else if n =? 125 then Some TRBrace
  else if n =? 91 then Some TLBracket else if n =? 93 then Some TRBracket
  else if n =? 58 then Some TColon else if n =? 44 then Some TComma
  else None.

Definition escape_char (c : ascii) : option ascii :=
  let n := Text.code c in
  if (n =? 34) || (n =? 92) || (n =? 47) then Some c
  else if n =? 98 then Some (Text.char 8)
  else if n =? 102 then Some (Text.char 12)
  else if n =? 110 then Some (Text.char 10)
  else if n =? 114 then Some (Text.char 13)
  else if n =? 116 then Some (Text.char 9)
  else None.

(** one character outside strings and atoms: tokens emitted and next state *)
Definition lex_idle (c : ascii) : option (list token * lex_state) :=
  if is_ws c then Some ([], LIdle)
  else if Text.code c =? 34 then Some ([], LStr [])
  else match punct c with
       | Some t => Some ([t], LIdle)
       | None => if atom_char c then Some ([], LAtom [c]) else None
       end.

Definition lex_step (st : lex_state) (c : ascii) : option (list token * lex_state) :=
  match st with
  | LIdle => lex_idle c
  | LStr acc =>
      let n := Text.code c in
      if n =? 34 then Some ([TString (Text.text (bytes_of_items (rev acc)))], LIdle)
      else if n =? 92 then Some ([], LEsc acc)
      else if n <? 32 then None
      else Some ([], LStr (Byte c :: acc))
  | LEsc acc =>
      if Text.code c =? 117 then Some ([], LUni acc 4 0)
      else match escape_char c with
           | Some b => Some ([], LStr (Byte b :: acc))
           | None => None
           end
  | LUni acc todo u =>
      match digit_value c, todo with
      | Some d, S O => Some ([], LStr (Unit16 (16 * u + d) :: acc))
      | Some d, S todo' => Some ([], LUni acc todo' (16 * u + d))
      | _, _ => None
      end
  | LAtom acc =>
      if atom_char c then Some ([], LAtom (c :: acc))
      else match atom_value acc, lex_idle c with
           | Some v, Some (ts, st') => Some (TAtom v :: ts, st')
           | _, _ => None
           end
  end.

Fixpoint lex (st : lex_state) (l : list ascii) : option (list token) :=
  match l with
  | [] =>
      match st with
      | LIdle => Some []
      | LAtom acc => option_map (fun v => [TAtom v]) (atom_value acc)
      | _ => None
      end
  | c :: l' =>
      match lex_step st c with
      | Some (ts, st') => option_map (app ts) (lex st' l')
      | None => None
      end
  end.

(** *** Parser: one pass over the tokens with a stack of open containers *)

Inductive frame :=
| FArr (rev_elems : list value)
| FObj (props : list (string * value)) (key : option string).

Inductive mode :=
| MValue | MValueOrEnd | MKeyOrEnd | MKey | MColon | MNext
| MDone (v : value).

Definition complete (v : value) (stack : list frame) : option (list frame * mode) :=
  match stack with
  | [] => Some ([], MDone v)
  | FArr es :: st => Some (FArr (v :: es) :: st, MNext)
  | FObj ps (Some k) :: st => Some (FObj (obj_set ps k v) None :: st, MNext)
  | FObj _ None :: _ => None
  end.

Definition parse_step (stack : list frame) (m : mode) (t : token)
  : option (list frame * mode) :=
  match m, t with
  | (MValue | MValueOrEnd), TString s => complete (VString s) stack
  | (MValue | MValueOrEnd), TAtom v => complete v stack
  | (MValue | MValueOrEnd), TLBracket => Some (FArr [] :: stack, MValueOrEnd)
  | (MValue | MValueOrEnd), TLBrace => Some (FObj [] None :: stack, MKeyOrEnd)
  | MValueOrEnd, TRBracket =>
      match stack with
      | FArr _ :: st => complete (VArray []) st
      | _ => None
      end
  | MKeyOrEnd, TRBrace =>
      match stack with
      | FObj _ _ :: st => complete (VObject []) st
      | _ => None
      end
  | (MKeyOrEnd | MKey), TString k =>
      match stack with
      | FObj ps _ :: st => Some (FObj ps (Some k) :: st, MColon)
      | _ => None
      end
  | MColon, TColon => Some (stack, MValue)
  | MNext, TComma =>
      match stack with
      | FArr _ :: _ => Some (stack, MValue)
      | FObj _ _ :: _ => Some (stack, MKey)
      | [] => None
      end
  | MNext, TRBracket =>
      match stack with
      | FArr es :: st => complete (VArray (rev es)) st
      | _ => None
      end
  | MNext, TRBrace =>
      match stack with
      | FObj ps None :: st => complete (VObject ps) st
      | _ => None
      end
  | _, _ => None
  end.

Fixpoint parse_tokens (stack : list frame) (m : mode) (ts : list token) : option value :=
  match ts with
  | [] => match stack, m with
          | [], MDone v => Some v
          | _, _ => None
          end
  | t :: ts' =>
      match parse_step stack m t with
      | Some (stack', m') => parse_tokens stack' m' ts'
      | None => None
      end
  end.

(** [JSON.parse(text)]; [None] stands for the [SyntaxError] it throws *)
Definition parse (s : string) : option value :=
  match lex LIdle (Text.chars s) with
  | Some ts => parse_tokens [] MValue ts
  | None => None
  end.

(** *** [JSON.stringify] *)

Definition hex4 (n : Z) : list ascii :=
  List.map Crypto.hex_digit [n / 4096; (n / 256) mod 16; (n / 16) mod 16; n mod 16].

Definition escape_byte (c : ascii) : list ascii :=
  let n := Text.code c in
  let bs := Text.char 92 in
  if n =? 8 then [bs; "b"%char] else if n =? 9 then [bs; "t"%char]
  else if n =? 10 then [bs; "n"%char] else if n =? 12 then [bs; "f"%char]
  else if n =? 13 then [bs; "r"%char]
  else if (n =? 34) || (n =? 92) then [bs; c]
  else if n <? 32 then bs :: "u"%char :: hex4 n
  else [c].

(** the body of [QuoteJSONString]; a lone surrogate (three bytes from 0xED
    0xA0) is written as a [\u] escape *)
Fixpoint quote_chars (l : list ascii) : list ascii :=
  match l with
  | [] => []
  | c :: tl =>
      match tl with
      | c2 :: c3 :: rest =>
          if (Text.code c =? 237) && (160 <=? Text.code c2)
          then Text.char 92 :: "u"%char
                 :: hex4 (53248 + (Text.code c2 - 128) * 64 + (Text.code c3 - 128))
                 ++ quote_chars rest
          else escape_byte c ++ quote_chars tl
      | _ => escape_byte c ++ quote_chars tl
      end
  end.

Definition quote (s : string) : string :=
  Text.text (Text.dquote :: quote_chars (Text.chars s) ++ [Text.dquote]).

Definition finite (x : Num.number) : bool :=
  match x with
  | S754_zero _ | S754_finite _ _ _ => true
  | _ => false
  end.

(** [JSON.stringify(v)] without replacer and indentation; [None] stands for
    the [undefined] it returns on [undefined] *)
Fixpoint stringify (v : value) : option string :=
  match v with
  | VUndefined => None
  | VNull => Some "null"%string
  | VBool b => Some (if b then "true" else "false")%string
  | VNumber x => Some (if finite x then Num.to_string x else "null")%string
  | VString s => Some (quote s)
  | VArray elems =>
      Some ("[" ++ join ","
              (List.map (fun e => match stringify e with
                                  | Some s => s
                                  | None => "null"
                                  end) elems) ++ "]")%string
  | VObject props =>
      Some ("{" ++ join ","
              (flat_map (fun kv => match stringify (snd kv) with
                                   | Some s => [(quote (fst kv) ++ ":" ++ s)%string]
                                   | None => []
                                   end) props) ++ "}")%string
  end.

End JSON.

(** ** HTTP responses ([res.status(..).json(..)], [res.send(..)]) *)

Module Http.

Inductive payload :=
| Json (v : JS.value)
| Plain (s : string)
| ErrorPage.

Record response := { status : Z; body : payload }.

(** [res.json(v)] *)
Definition json (v : JS.value) : response := {| status := 200; body := Json v |}.
(** [res.status(code).json(v)] *)
Definition status_json (code : Z) (v : JS.value) : response :=
  {| status := code; body := Json v |}.
(** [res.status(code).send(text)] *)
Definition status_send (code : Z) (s : string) : response :=
  {| status := code; body := Plain s |}.

End Http.

(** ** The [payments] table behind [pool.query] *)

Module Store.

Import JS.

(** a bound query parameter: [NULL] or its text *)
Definition sql := option string.

Definition escapeElement (s : string) : string :=
  Text.text
    (Text.dquote
       :: flat_map (fun c => if (Text.code c =? 92) || (Text.code c =? 34)
                             then [Text.char 92; c] else [c]) (Text.chars s)
       ++ [Text.dquote]).

(** how [pg] binds a JavaScript value: [null] and [undefined] as [NULL],
    an array as an array literal, an object as its JSON text, a boolean, a
    number and a string through [toString] *)
Fixpoint prepareValue (v : value) : sql :=
  match v with
  | VUndefined | VNull => None
  | VArray elems =>
      Some ("{" ++ join ","
              (List.map (fun e => match e with
                                  | VArray _ =>
                                      match prepareValue e with
                                      | Some s => s
                                      | None => "NULL"
                                      end
                                  | _ =>
                                      match prepareValue e with
                                      | Some s => escapeElement s
                                      | None => "NULL"
                                      end
                                  end) elems) ++ "}")%string
  | VObject _ => JSON.stringify v
  | VBool b => Some (if b then "true" else "false")%string
  | VNumber x => Some (Num.to_string x)
  | VString s => Some s
  end.

Record row := {
  event_id : sql;
  status : sql;
  amount : sql;
  currency : sql;
  email : sql;
  contact : sql;
  created_at : Z
}.

Definition table := list row.

Definition key_is (k : string) (r : row) : bool :=
  match event_id r with
  | Some k' => String.eqb k k'
  | None => false
  end.

(** the rows that hold event id [k] *)
Definition rows_of (k : string) (t : table) : list row := filter (key_is k) t.

(** the unique index on [event_id]: a [NULL] key conflicts with nothing *)
Definition conflict (r : row) (t : table) : bool :=
  match event_id r with
  | Some k => existsb (key_is k) t
  | None => false
  end.

(** [INSERT INTO payments (event_id, status, amount, currency, email, contact,
    created_at) VALUES ($1, $2, $3, $4, $5, $6, NOW()) ON CONFLICT (event_id)
    DO NOTHING] *)
Definition insert_on_conflict_do_nothing (now : Z) (params : list value) (t : table) : table :=
  let p i := prepareValue (nth i params VUndefined) in
  let r := {| event_id := p 0%nat; status := p 1%nat; amount := p 2%nat;
              currency := p 3%nat; email := p 4%nat; contact := p 5%nat;
              created_at := now |} in
  if conflict r t then t else t ++ [r].

(** no two rows share an event id *)
Fixpoint unique (t : table) : Prop :=
  match t with
  | [] => True
  | r :: rest =>
      match event_id r with
      | Some k => rows_of k rest = []
      | None => True
      end /\ unique rest
  end.

End Store.

(** ** What the two files share: the gateway client and the handlers' results *)

Module App.

Import JS.
Local Open Scope string_scope.

(** the [options] object handed to [razorpay.orders.create] *)
Record order_options := {
  amount : Num.number;
  currency : value;
  receipt : string
}.

(** [razorpay.orders.create]: resolves with the order or rejects *)
Definition gateway := order_options -> result value.

Record order_outcome := {
  order_response : Http.response;
  gateway_calls : list order_options
}.

Record webhook_outcome := {
  response : Http.response;
  queries : list (list value);
  payments : Store.table
}.

(** a destructuring default, [{ k = d }]: [d] stands in for [undefined] *)
Definition with_default (given d : value) : value :=
  match given with
  | VUndefined => d
  | _ => given
  end.

Definition invalid_amount : Http.response :=
  Http.status_json 400
    (VObject [("success", VBool false); ("error", VString "Invalid amount")]).

Definition order_created (order : value) : Http.response :=
  Http.json (VObject [("success", VBool true); ("order", order)]).

Definition order_failed (e : exn) : Http.response :=
  Http.status_json 500 (VObject [("success", VBool false); ("error", message_of e)]).

Definition webhook_ok : Http.response :=
  Http.json (VObject [("status", VString "ok")]).

Definition webhook_error : Http.response := Http.status_send 500 "Webhook error".

Definition invalid_signature : Http.response := Http.status_send 400 "Invalid signature".

(** the handler's [try] block yields a response and the parameters of the
    queries it issued; [catch] answers 500 and nothing has been stored *)
Definition run_webhook (now : Z) (t : Store.table)
    (attempt : result (Http.response * list (list value))) : webhook_outcome :=
  match attempt with
  | Ok (r, qs) =>
      {| response := r; queries := qs;
         payments := fold_left (fun t' ps => Store.insert_on_conflict_do_nothing now ps t') qs t |}
  | Throw _ => {| response := webhook_error; queries := []; payments := t |}
  end.

End App.

Declare Scope js_scope.
Delimit Scope js_scope with js.
Notation "x <- m ;; k" := (JS.bind m (fun x => k))
  (at level 61, m at next level, right associativity) : js_scope.

(** ** [src/unnamed/part_000]: the CommonJS server *)

Module CJS.

Import JS App.
Local Open Scope string_scope.
Local Open Scope js_scope.

(** [POST /create-order] (lines 45-64) *)
Definition create_order (razorpay : gateway) (now : Z) (body : value) : order_outcome :=
  let attempt :=
    amount <- destructure "req.body" body "amount" ;;
    given <- destructure "req.body" body "currency" ;;
    let currency := with_default given (VString "INR") in
    invalid <- or_test (Ok (negb (truthy amount)))
                 (or_test (isNaN amount) (le_number amount Num.zero)) ;;
    if invalid then Ok (invalid_amount, [])
    else
      paise <- mul_number amount (Num.of_Z 100) ;;
      let options := {| amount := Num.round paise;
                        currency := currency;
                        receipt := "receipt_" ++ Text.string_of_Z now |} in
      match razorpay options with
      | Ok order => Ok (order_created order, [options])
      | Throw err => Ok (order_failed err, [options])
      end in
  match attempt with
  | Ok (r, calls) => {| order_response := r; gateway_calls := calls |}
  | Throw err => {| order_response := order_failed err; gateway_calls := [] |}
  end.

(** [req.body] as the webhook handler may find it: a [Buffer], which is what
    [bodyParser.raw] (line 73) puts there when it reads the body itself, or
    the value that an earlier parser has put there.  In the application as it
    is mounted the earlier parser is [express.json()] (line 22), see
    [post_webhook] below *)
Inductive req_body :=
| Buffer (bytes : string)
| Parsed (v : value).

Record request := {
  signature_header : option string;
  body : req_body
}.

(** [hmac.update(data)] takes a string or a [Buffer] *)
Definition update (data : req_body) : result string :=
  match data with
  | Buffer bytes => Ok bytes
  | Parsed (VString s) => Ok s
  | Parsed _ => Throw (TypeError "The data argument must be of type string or an instance of Buffer")
  end.

(** [req.body.toString()] *)
Definition toString (data : req_body) : result string :=
  match data with
  | Buffer bytes => Ok bytes
  | Parsed VUndefined =>
      Throw (TypeError "Cannot read properties of undefined (reading 'toString')")
  | Parsed VNull => Throw (TypeError "Cannot read properties of null (reading 'toString')")
  | Parsed (VObject props) =>
      if own "toString" props then Throw (TypeError "req.body.toString is not a function")
      else Ok "[object Object]"
  | Parsed v => ToString v
  end.

Definition JSON_parse (s : string) : result value :=
  match JSON.parse s with
  | Some v => Ok v
  | None => Throw (SyntaxError "Unexpected token in JSON")
  end.

(** the [try] block of [POST /webhook] (lines 75-115) *)
Definition webhook_try (RAZORPAY_WEBHOOK_SECRET : option string) (req : request)
  : result (Http.response * list (list value)) :=
  match signature_header req, RAZORPAY_WEBHOOK_SECRET with
  | Some signature, Some webhookSecret =>
      if String.eqb signature "" || String.eqb webhookSecret "" then
        Ok (Http.status_send 400 "Missing signature or webhook secret", [])
      else
        data <- update (body req) ;;
        let expected := Crypto.createHmac_sha256_hex webhookSecret data in
        if negb (String.eqb signature expected) then Ok (invalid_signature, [])
        else
          text <- toString (body req) ;;
          event <- JSON_parse text ;;
          payload <- get event "payload" ;;
          let paymentEntity := or_else (get_opt (get_opt payload "payment") "entity") VNull in
          id <- get event "id" ;;
          event_type <- get event "event" ;;
          Ok (webhook_ok,
              [[ id;
                 or_else (or_else (get_opt paymentEntity "status") event_type) (VString "unknown");
                 or_else (get_opt paymentEntity "amount") (VNumber Num.zero);
                 or_else (get_opt paymentEntity "currency") (VString "INR");
                 or_else (get_opt paymentEntity "email") VNull;
                 or_else (get_opt paymentEntity "contact") VNull ]])
  | _, _ => Ok (Http.status_send 400 "Missing signature or webhook secret", [])
  end.

(** the handler of [POST /webhook] (lines 74-120) *)
Definition webhook (RAZORPAY_WEBHOOK_SECRET : option string) (req : request)
    (now : Z) (t : Store.table) : webhook_outcome :=
  run_webhook now t (webhook_try RAZORPAY_WEBHOOK_SECRET req).

(** [app.use(express.json())] (line 22) on a request of type
    [application/json]: an empty body reads as the empty object, and only an
    object or an array is accepted (strict mode, the default); [None] is the
    parser's error, answered with status 400 before any handler runs *)
Definition express_json (raw : string) : option value :=
  match raw with
  | EmptyString => Some (VObject [])
  | _ => match JSON.parse raw with
         | Some (VObject props) => Some (VObject props)
         | Some (VArray elems) => Some (VArray elems)
         | _ => None
         end
  end.

(** [bodyParser.raw({ type: "application/json" })] (line 73): a request whose
    body an earlier parser has read is passed on as it is; only a body still
    unread is read into a [Buffer] *)
Definition bodyParser_raw (already : option value) (raw : string) : req_body :=
  match already with
  | Some parsed => Parsed parsed
  | None => Buffer raw
  end.

(** [POST /webhook] from the bytes on the wire, for a request of type
    [application/json]: [express.json()] is mounted on every route and comes
    first, then the route's own [bodyParser.raw], then the handler.  The
    first parser reads every body of this type (or answers 400 itself), so
    the second never reads one, and the handler finds the parsed value in
    [req.body] *)
Definition post_webhook (RAZORPAY_WEBHOOK_SECRET : option string)
    (signature : option string) (raw : string) (now : Z) (t : Store.table)
  : webhook_outcome :=
  match express_json raw with
  | Some parsed =>
      webhook RAZORPAY_WEBHOOK_SECRET
        {| signature_header := signature; body := bodyParser_raw (Some parsed) raw |} now t
  | None =>
      {| response := {| Http.status := 400; Http.body := Http.ErrorPage |};
         queries := []; payments := t |}
  end.

End CJS.

(** ** [src/server.js]: the ES-module server *)

Module ESM.

Import JS App.
Local Open Scope string_scope.
Local Open Scope js_scope.

(** [POST /create-order] (lines 32-53) *)
Definition create_order (razorpay : gateway) (now : Z) (body : value) : order_outcome :=
  let attempt :=
    amount <- destructure "req.body" body "amount" ;;
    given <- destructure "req.body" body "currency" ;;
    let currency := with_default given (VString "INR") in
    invalid <- or_test (Ok (negb (truthy amount))) (le_number amount Num.zero) ;;
    if invalid then Ok (invalid_amount, [])
    else
      paise <- mul_number amount (Num.of_Z 100) ;;
      let options := {| amount := paise;
                        currency := currency;
                        receipt := "receipt_" ++ Text.string_of_Z now |} in
      match razorpay options with
      | Ok order => Ok (order_created order, [options])
      | Throw err => Ok (order_failed err, [options])
      end in
  match attempt with
  | Ok (r, calls) => {| order_response := r; gateway_calls := calls |}
  | Throw err => {| order_response := order_failed err; gateway_calls := [] |}
  end.

(** [app.use(bodyParser.json())] (line 17) on a request of type
    [application/json]: an empty body reads as the empty object, and only an
    object or an array is accepted (strict mode, the default); [None] is the
    parser's error, answered with status 400 before any handler runs *)
Definition bodyParser_json (raw : string) : option value :=
  match raw with
  | EmptyString => Some (VObject [])
  | _ => match JSON.parse raw with
         | Some (VObject props) => Some (VObject props)
         | Some (VArray elems) => Some (VArray elems)
         | _ => None
         end
  end.

Record request := {
  signature_header : option string;
  body : value
}.

(** [crypto.createHmac("sha256", secret)] rejects a key that is [undefined] *)
Definition createHmac_key (secret : option string) : result string :=
  match secret with
  | Some key => Ok key
  | None => Throw (TypeError "The key argument must be of type string")
  end.

(** [hmac.update(body)] rejects [undefined], which [JSON.stringify] returns for
    an [undefined] body *)
Definition update (data : option string) : result string :=
  match data with
  | Some s => Ok s
  | None => Throw (TypeError "The data argument must be of type string")
  end.

(** the [try] block of [POST /webhook] (lines 57-93) *)
Definition webhook_try (RAZORPAY_WEBHOOK_SECRET : option string) (req : request)
  : result (Http.response * list (list value)) :=
  let secret := RAZORPAY_WEBHOOK_SECRET in
  let signature := signature_header req in
  let body := JSON.stringify (body req) in
  key <- createHmac_key secret ;;
  data <- update body ;;
  let expectedSignature := Crypto.createHmac_sha256_hex key data in
  if negb match signature with
          | Some s => String.eqb s expectedSignature
          | None => false
          end
  then Ok (invalid_signature, [])
  else
    let event := ESM.body req in
    payload <- get event "payload" ;;
    let paymentEntity := get_opt (get_opt payload "payment") "entity" in
    id <- get event "id" ;;
    Ok (webhook_ok,
        [[ id;
           or_else (get_opt paymentEntity "status") (VString "created");
           or_else (get_opt paymentEntity "amount") (VNumber Num.zero);
           or_else (get_opt paymentEntity "currency") (VString "INR");
           or_else (get_opt paymentEntity "email") VNull;
           or_else (get_opt paymentEntity "contact") VNull ]]).

(** [POST /webhook] as the handler sees it *)
Definition webhook (RAZORPAY_WEBHOOK_SECRET : option string) (req : request)
    (now : Z) (t : Store.table) : webhook_outcome :=
  run_webhook now t (webhook_try RAZORPAY_WEBHOOK_SECRET req).

(** [POST /webhook] from the bytes on the wire: the JSON body parser first,
    then the handler *)
Definition post_webhook (RAZORPAY_WEBHOOK_SECRET : option string)
    (signature : option string) (raw : string) (now : Z) (t : Store.table)
  : webhook_outcome :=
  match bodyParser_json raw with
  | Some parsed =>
      webhook RAZORPAY_WEBHOOK_SECRET {| signature_header := signature; body := parsed |} now t
  | None =>
      {| response := {| Http.status := 400; Http.body := Http.ErrorPage |};
         queries := []; payments := t |}
  end.

End ESM.

(** ** Vocabulary of the statements *)

Module Spec.

Import JS App.

(** the event id a handler run bound to [$1], if it issued a query *)
Definition bound_event_id (o : webhook_outcome) : Store.sql :=
  match queries o with
  | ps :: _ => Store.prepareValue (nth 0 ps VUndefined)
  | [] => None
  end.

(** the webhook handlers of the two files, each closed over its environment
    and request: what remains is the clock and the table *)
Inductive handler : (Z -> Store.table -> webhook_outcome) -> Prop :=
| handler_cjs secret req : handler (CJS.webhook secret req)
| handler_esm secret req : handler (ESM.webhook secret req).

(** any number of webhook deliveries, to either server, of any requests *)
Inductive deliveries : Store.table -> Store.table -> Prop :=
| deliveries_none t : deliveries t t
| deliveries_more h now t t' :
    handler h -> deliveries (payments (h now t)) t' -> deliveries t t'.

(** what a [try] block may come to: a 400 without a query, or the
    acknowledgement after exactly one query *)
Definition tidy (a : result (Http.response * list (list value))) : Prop :=
  match a with
  | Throw _ => True
  | Ok (r, qs) =>
      (Http.status r = 400 /\ qs = []) \/ (r = webhook_ok /\ exists ps, qs = [ps])
  end.

(** the same request delivered once per entry of [times] *)
Definition redeliver (h : Z -> Store.table -> webhook_outcome) (times : list Z)
    (t : Store.table) : Store.table :=
  fold_left (fun t' now => payments (h now t')) times t.

(** the row a handler stores for the parameters [ps] at time [now] *)
Definition row_of (now : Z) (ps : list value) : Store.row :=
  let p i := Store.prepareValue (nth i ps VUndefined) in
  {| Store.event_id := p 0%nat; Store.status := p 1%nat; Store.amount := p 2%nat;
     Store.currency := p 3%nat; Store.email := p 4%nat; Store.contact := p 5%nat;
     Store.created_at := now |}.

(** [payload.payment.entity] of a parsed event, [undefined] when any step is
    missing *)
Definition entity_of (event : value) : value :=
  get_opt (get_opt (get_opt event "payload"%string) "payment"%string) "entity"%string.

(** the amount, as a number, in the gateway calls of an order request *)
Definition called_amounts (o : order_outcome) : list string :=
  List.map (fun c => Num.to_string (amount c)) (gateway_calls o).

(** [!!x] for a header or an environment variable: set, and not the empty
    string *)
Definition present (x : option string) : bool :=
  match x with
  | Some s => negb (String.eqb s "")
  | None => false
  end.

(** no token, and no finished parse, carries [undefined] *)
Definition defined_token (t : JSON.token) : Prop :=
  match t with
  | JSON.TAtom v => v <> VUndefined
  | _ => True
  end.

Definition defined_mode (m : JSON.mode) : Prop :=
  match m with
  | JSON.MDone v => v <> VUndefined
  | _ => True
  end.

End Spec.

(** ** Sample requests *)

Module Sample.

Import JS App.
Local Open Scope string_scope.

Definition secret : string := "whsec_test".
Definition now : Z := 1700000000000.

(** the scenario of the specification (section 8), its signature under
    [secret], and the event it parses to *)
Definition scenario_raw : string :=
  Text.q "{'id':'evt_1','payload':{'payment':{'entity':{'status':'captured','amount':50000,'currency':'INR','email':'a@b.com','contact':'+911234567890'}}}}".
Definition scenario_signature : string :=
  "a6ecfadac966cff1b84be443d6be3693f488414235231af6abb5cf1533f8df35".
Definition scenario_event : value :=
  VObject
    [("id", VString "evt_1");
     ("payload",
      VObject
        [("payment",
          VObject
            [("entity",
              VObject
                [("status", VString "captured");
                 ("amount", VNumber (Num.of_Z 50000));
                 ("currency", VString "INR");
                 ("email", VString "a@b.com");
                 ("contact", VString "+911234567890")])])])].

(** the same event as a gateway may well serialise it, with blanks, and the
    signature of these bytes *)
Definition spaced_raw : string := Text.q "{ 'id': 'evt_1' }".
Definition spaced_signature : string :=
  "d660a66bb83b1f80046c9f6d8023187c3fef36dc5cc814f2670f2d3235b677e9".

(** an event without a payment entity *)
Definition failed_raw : string := Text.q "{'id':'evt_2','event':'payment.failed'}".
Definition failed_signature : string :=
  "7c10b19ce5f8e178dd3be472bc81cc8167038bb8fe9f7b7a6bed62c35c19b329".
Definition failed_event : value :=
  VObject [("id", VString "evt_2"); ("event", VString "payment.failed")].

(** a body cut short, signed as it is *)
Definition truncated_raw : string := Text.q "{'id':".
Definition truncated_signature : string :=
  "c2b19a94e05b6c59d148c6112f772b9b1d47f4a472498b8bccd27bf9b9a0738d".

(** a request as the CommonJS handler would see it if the body reached it
    unread by [express.json()], as the [Buffer] of the route's own parser;
    over HTTP it does not, see [CJS.post_webhook] *)
Definition cjs_request (signature raw : string) : CJS.request :=
  {| CJS.signature_header := Some signature; CJS.body := CJS.Buffer raw |}.

Definition esm_request (signature : string) (event : value) : ESM.request :=
  {| ESM.signature_header := Some signature; ESM.body := event |}.

(** a gateway that accepts every order *)
Definition accepting : gateway := fun _ => Ok (VObject [("id", VString "order_1")]).

Definition amount_only (amount : value) : value := VObject [("amount", amount)].

End Sample.

(** ** Vocabulary of the further properties *)

Module More.

Import JS App.

(** the number a string of decimal digits stands for *)
Definition decimal_value (l : list ascii) : Z :=
  fold_left (fun acc c => 10 * acc + (Text.code c - 48)) l 0.

(** the two [create-order] handlers *)
Inductive order_handler : (gateway -> Z -> value -> order_outcome) -> Prop :=
| order_handler_cjs : order_handler CJS.create_order
| order_handler_esm : order_handler ESM.create_order.

End More.

Arguments Crypto.createHmac_sha256_hex : simpl never.
Arguments JSON.parse : simpl never.
Arguments JSON.stringify : simpl never.
Arguments Store.prepareValue : simpl never.
Arguments JS.StringToNumber : simpl never.
Arguments Num.to_string : simpl never.
Arguments Num.round : simpl never.
Arguments Num.mul : simpl never.
Arguments Text.string_of_Z : simpl never.

(** ** Proof steps *)

(** case analysis on an innermost scrutinee of the goal *)
Ltac has_match t :=
  match t with
  | context [match _ with _ => _ end] => idtac
  end.

Ltac break_match :=
  match goal with
  | |- context [match ?scrutinee with _ => _ end] =>
      tryif has_match scrutinee then fail else destruct scrutinee eqn:?
  end.

(** * Properties *)

(** ** The library models on known values *)

Section KnownValues.

Import JS Sample.
Local Open Scope string_scope.

(** FIPS 180-4, the one-block message "abc" *)
Example sha256_abc :
  Crypto.hex (Crypto.sha256 (Crypto.bytes_of_string "abc"))
  = "ba7816bf8f01cfea414140de5dae2223b00361a396177a9cb410ff61f20015ad".
Proof. vm_compute. reflexivity. Qed.

(** RFC 4231, test case 2 *)
Example hmac_sha256_rfc4231_2 :
  Crypto.createHmac_sha256_hex "Jefe" "what do ya want for nothing?"
  = "5bdcc146bf60754e6a042426089575c75a003f089d2739839dec58b964ec3843".
Proof. vm_compute. reflexivity. Qed.

(** RFC 4231, test case 6: a key longer than a block is hashed first *)
Example hmac_sha256_rfc4231_6 :
  Crypto.hex
    (Crypto.hmac_sha256 (repeat 170 131)
       (Crypto.bytes_of_string "Test Using Larger Than Block-Size Key - Hash Key First"))
  = "60e431591ee0b67f0d8a26aacbf5b77f8e0bc6213728c5140546040f0ee37f54".
Proof. vm_compute. reflexivity. Qed.

Example scenario_is_signed :
  Crypto.createHmac_sha256_hex secret scenario_raw = scenario_signature.
Proof. vm_compute. reflexivity. Qed.

Example scenario_parses : JSON.parse scenario_raw = Some scenario_event.
Proof. vm_compute. reflexivity. Qed.

Example scenario_prints : JSON.stringify scenario_event = Some scenario_raw.
Proof. vm_compute. reflexivity. Qed.

(** index keys first and ascending, a repeated key keeps its first place and
    its last value, numbers print in their shortest form *)
Example parse_then_stringify :
  option_map JSON.stringify
    (JSON.parse (Text.q "{ 'b': 1.50, '10': [1e21, -0, 0.1], '9': null, 'b': 'x\u0041\n' }"))
  = Some (Some (Text.q "{'9':null,'10':[1e+21,0,0.1],'b':'xA\n'}")).
Proof. vm_compute. reflexivity. Qed.

Example parse_rejects :
  List.map JSON.parse
    [truncated_raw; Text.q "{'a':1,}"; "[1 2]"; "01"; "+1"; ".5"; "nul"; ""; "{} x"]
  = [None; None; None; None; None; None; None; None; None].
Proof. vm_compute. reflexivity. Qed.

Example string_to_number :
  List.map (fun s => Num.to_string (StringToNumber s))
    ["100"; " 19.99 "; ""; "abc"; "1e3"; "-5"; "0x1f"; "12px"; "Infinity"; "1,2"]
  = ["100"; "19.99"; "0"; "NaN"; "1000"; "-5"; "31"; "NaN"; "Infinity"; "NaN"].
Proof. vm_compute. reflexivity. Qed.

(** the last three cannot be made primitive: an own [toString] that is no
    function, directly or in an element of an array *)
Example to_number :
  List.map (fun v => match ToNumber v with
                     | Ok x => Num.to_string x
                     | Throw (TypeError _) => "TypeError"
                     | Throw _ => "another exception"
                     end)
    [VUndefined; VNull; VBool true; VArray []; VArray [VString "5"];
     VArray [VNumber (Num.of_Z 1); VNumber (Num.of_Z 2)]; VObject [];
     VObject [("valueOf", VNull)]; VArray [VNull; VArray [VUndefined]];
     VObject [("toString", VNull)];
     VArray [VObject [("toString", VString "x")]];
     VArray [VNull; VArray [VObject [("toString", VNumber (Num.of_Z 1))]]]]
  = ["NaN"; "0"; "1"; "0"; "5"; "NaN"; "NaN"; "NaN"; "NaN"; "TypeError"; "TypeError";
     "TypeError"].
Proof. vm_compute. reflexivity. Qed.

Example binary64_products :
  List.map (fun x => Num.to_string (Num.mul x (Num.of_Z 100)))
    [Num.of_Z 100; Num.of_decimal false 1999 (-2); Num.of_decimal false 11 (-1);
     Num.of_decimal false 125 (-3)]
  = ["10000"; "1998.9999999999998"; "110.00000000000001"; "12.5"].
Proof. vm_compute. reflexivity. Qed.

Example math_round :
  List.map (fun x => Num.to_string (Num.round x))
    [Num.of_decimal false 125 (-1); Num.of_decimal true 125 (-1);
     Num.of_decimal false 4 (-1); Num.of_decimal true 26 (-1); Num.of_Z 7; Num.NaN]
  = ["13"; "-12"; "0"; "-3"; "7"; "NaN"].
Proof. vm_compute. reflexivity. Qed.

End KnownValues.

(** ** The store *)

Section StoreFacts.

Import Store.

Lemma rows_of_app (k : string) (t1 t2 : table) :
  rows_of k (t1 ++ t2) = rows_of k t1 ++ rows_of k t2.
Proof. unfold rows_of. apply filter_app. Qed.

Lemma no_match_no_rows (k : string) (t : table) :
  existsb (key_is k) t = false -> rows_of k t = [].
Proof.
  induction t as [|r t IH]; simpl; intros H; [reflexivity|].
  apply orb_false_iff in H. destruct H as [Hr Ht].
  rewrite Hr. auto.
Qed.

Lemma match_some_rows (k : string) (t : table) :
  existsb (key_is k) t = true -> rows_of k t <> [].
Proof.
  induction t as [|r t IH]; simpl; intros H; [discriminate|].
  destruct (key_is k r) eqn:Hr; [discriminate|].
  simpl in H. auto.
Qed.

Lemma key_is_eq (k : string) (r : row) :
  key_is k r = true <-> event_id r = Some k.
Proof.
  unfold key_is. destruct (event_id r) as [k'|]; split; intros H; try discriminate.
  - apply String.eqb_eq in H. now subst.
  - injection H as ->. apply String.eqb_refl.
Qed.

Lemma unique_at_most_one (t : table) :
  unique t -> forall k, (List.length (rows_of k t) <= 1)%nat.
Proof.
  induction t as [|r t IH]; simpl; intros Hu k; [lia|].
  destruct Hu as [Hr Hu]. specialize (IH Hu k).
  destruct (key_is k r) eqn:Hk; simpl; [|exact IH].
  apply key_is_eq in Hk. rewrite Hk in Hr.
  unfold rows_of in *. rewrite Hr. simpl. lia.
Qed.

Lemma unique_snoc (t : table) (r : row) :
  unique t ->
  (forall k, event_id r = Some k -> rows_of k t = []) ->
  unique (t ++ [r]).
Proof.
  induction t as [|a t IH]; simpl; intros Hu Hfresh.
  - split; [|exact I]. now destruct (event_id r).
  - destruct Hu as [Ha Hu]. split.
    + destruct (event_id a) as [ka|] eqn:Hka; [|exact I].
      rewrite rows_of_app, Ha. simpl.
      destruct (key_is ka r) eqn:Hr; [|reflexivity].
      apply key_is_eq in Hr. specialize (Hfresh ka Hr).
      assert (Hk : key_is ka a = true) by now apply key_is_eq.
      unfold rows_of in Hfresh. simpl in Hfresh. rewrite Hk in Hfresh. discriminate.
    + apply IH; [exact Hu|]. intros k Hk. specialize (Hfresh k Hk).
      unfold rows_of in *. simpl in Hfresh.
      destruct (key_is k a); [discriminate|exact Hfresh].
Qed.

(** the conditional insert either leaves the table alone or appends the row *)
Lemma insert_cases (now : Z) (ps : list JS.value) (t : table) :
  (conflict (Spec.row_of now ps) t = true /\ insert_on_conflict_do_nothing now ps t = t)
  \/ (conflict (Spec.row_of now ps) t = false
      /\ insert_on_conflict_do_nothing now ps t = t ++ [Spec.row_of now ps]).
Proof.
  unfold insert_on_conflict_do_nothing. fold (Spec.row_of now ps).
  destruct (conflict (Spec.row_of now ps) t); [left|right]; split; reflexivity.
Qed.

Lemma insert_keeps_unique (now : Z) (ps : list JS.value) (t : table) :
  unique t -> unique (insert_on_conflict_do_nothing now ps t).
Proof.
  intros Hu. destruct (insert_cases now ps t) as [[_ ->]|[Hc ->]]; [exact Hu|].
  apply unique_snoc; [exact Hu|]. intros k Hk.
  unfold conflict in Hc. rewrite Hk in Hc. now apply no_match_no_rows.
Qed.

Lemma insert_one_row (now : Z) (ps : list JS.value) (t : table) (k : string) :
  unique t ->
  prepareValue (nth 0 ps JS.VUndefined) = Some k ->
  List.length (rows_of k (insert_on_conflict_do_nothing now ps t)) = 1%nat.
Proof.
  intros Hu Hk.
  assert (Hid : event_id (Spec.row_of now ps) = Some k) by exact Hk.
  destruct (insert_cases now ps t) as [[Hc ->]|[Hc ->]];
    unfold conflict in Hc; rewrite Hid in Hc.
  - pose proof (unique_at_most_one t Hu k) as Hle.
    apply match_some_rows in Hc.
    destruct (rows_of k t); [contradiction|simpl in *; lia].
  - rewrite rows_of_app, (no_match_no_rows _ _ Hc). simpl.
    apply key_is_eq in Hid. unfold rows_of. simpl. now rewrite Hid.
Qed.

(** a second insert under the same key changes nothing *)
Lemma insert_again (now now' : Z) (ps : list JS.value) (t : table) (k : string) :
  prepareValue (nth 0 ps JS.VUndefined) = Some k ->
  insert_on_conflict_do_nothing now' ps (insert_on_conflict_do_nothing now ps t)
  = insert_on_conflict_do_nothing now ps t.
Proof.
  intros Hk.
  assert (Hid : forall n, event_id (Spec.row_of n ps) = Some k) by (intros n; exact Hk).
  assert (Hc : conflict (Spec.row_of now' ps) (insert_on_conflict_do_nothing now ps t) = true).
  { unfold conflict. rewrite Hid.
    destruct (insert_cases now ps t) as [[Hc ->]|[Hc ->]].
    - unfold conflict in Hc. now rewrite Hid in Hc.
    - rewrite existsb_app. simpl.
      assert (Hr : key_is k (Spec.row_of now ps) = true) by (apply key_is_eq, Hid).
      rewrite Hr. now rewrite orb_true_r. }
  destruct (insert_cases now' ps (insert_on_conflict_do_nothing now ps t))
    as [[_ ->]|[Hc' _]]; [reflexivity|congruence].
Qed.

(** rows are never removed: what was stored under [k] stays stored *)
Lemma insert_keeps_rows (now : Z) (ps : list JS.value) (t : table) (k : string) :
  rows_of k t <> [] -> rows_of k (insert_on_conflict_do_nothing now ps t) <> [].
Proof.
  intros Hne. destruct (insert_cases now ps t) as [[_ ->]|[_ ->]]; [exact Hne|].
  rewrite rows_of_app. destruct (rows_of k t); [contradiction|discriminate].
Qed.

End StoreFacts.

(** ** The webhook handlers: shape of a run *)

Section WebhookShape.

Import JS App Spec.

Lemma cjs_tidy secret req : tidy (CJS.webhook_try secret req).
Proof.
  unfold CJS.webhook_try, JS.bind, tidy.
  repeat break_match; try exact I; try (left; split; reflexivity).
  all: right; split; [reflexivity | eexists; reflexivity].
Qed.

Lemma esm_tidy secret req : tidy (ESM.webhook_try secret req).
Proof.
  unfold ESM.webhook_try, JS.bind, tidy.
  repeat break_match; try exact I; try (left; split; reflexivity).
  all: right; split; [reflexivity | eexists; reflexivity].
Qed.

Lemma handler_tidy h :
  handler h -> exists a, tidy a /\ forall now t, h now t = run_webhook now t a.
Proof.
  intros [secret req|secret req].
  - exists (CJS.webhook_try secret req). split; [apply cjs_tidy|reflexivity].
  - exists (ESM.webhook_try secret req). split; [apply esm_tidy|reflexivity].
Qed.

(** a run either acknowledges after one conditional insert, or answers
    something else and leaves the table alone *)
Lemma run_cases a now t :
  tidy a ->
  (response (run_webhook now t a) = webhook_ok
   /\ exists ps, a = Ok (webhook_ok, [ps])
                 /\ queries (run_webhook now t a) = [ps]
                 /\ payments (run_webhook now t a)
                    = Store.insert_on_conflict_do_nothing now ps t)
  \/ (response (run_webhook now t a) <> webhook_ok
      /\ queries (run_webhook now t a) = []
      /\ payments (run_webhook now t a) = t).
Proof.
  destruct a as [[r qs]|e]; simpl.
  - intros [[H400 ->]|[-> [ps ->]]].
    + right. repeat split. intros ->. discriminate.
    + left. split; [reflexivity|]. exists ps. repeat split.
  - intros _. right. repeat split. discriminate.
Qed.

Lemma delivery_keeps_unique h now t :
  handler h -> Store.unique t -> Store.unique (payments (h now t)).
Proof.
  intros Hh Hu. destruct (handler_tidy h Hh) as (a & Ha & Hrun). rewrite Hrun.
  destruct (run_cases a now t Ha) as [(_ & ps & _ & _ & ->)|(_ & _ & ->)];
    [now apply insert_keeps_unique | exact Hu].
Qed.

Lemma delivery_keeps_rows h now t k :
  handler h -> Store.rows_of k t <> [] -> Store.rows_of k (payments (h now t)) <> [].
Proof.
  intros Hh Hne. destruct (handler_tidy h Hh) as (a & Ha & Hrun). rewrite Hrun.
  destruct (run_cases a now t Ha) as [(_ & ps & _ & _ & ->)|(_ & _ & ->)];
    [now apply insert_keeps_rows | exact Hne].
Qed.

Lemma deliveries_keep_one_row t t' k :
  deliveries t t' ->
  Store.unique t -> Store.rows_of k t <> [] ->
  List.length (Store.rows_of k t') = 1%nat.
Proof.
  induction 1 as [t|h now t t' Hh _ IH]; intros Hu Hne.
  - pose proof (unique_at_most_one t Hu k).
    destruct (Store.rows_of k t); [contradiction|simpl in *; lia].
  - apply IH; [now apply delivery_keeps_unique | now apply delivery_keeps_rows].
Qed.

End WebhookShape.

(** ** Idempotent persistence and the frame of a delivery *)

Section WebhookStore.

Import JS App Spec.

(** C2. Idempotent persistence, for the webhook handler of either file: once
    a delivery of an event has been acknowledged, the table holds exactly one
    row for its event id, every further delivery of the same request is
    acknowledged again and leaves the table as it is, and no later delivery
    of anything makes a second row for that id. *)
Theorem webhook_idempotent h now t k :
  handler h ->
  Store.unique t ->
  response (h now t) = webhook_ok ->
  bound_event_id (h now t) = Some k ->
  let t1 := payments (h now t) in
  List.length (Store.rows_of k t1) = 1%nat
  /\ (forall now', response (h now' t1) = webhook_ok /\ payments (h now' t1) = t1)
  /\ (forall times, redeliver h times t1 = t1)
  /\ (forall t2, deliveries t1 t2 -> List.length (Store.rows_of k t2) = 1%nat).
Proof.
  intros Hh Hu Hok Hk t1. subst t1.
  destruct (handler_tidy h Hh) as (a & Ha & Hrun).
  rewrite Hrun in Hok, Hk |- *.
  destruct (run_cases a now t Ha) as [(_ & ps & -> & Hq & Hp)|(Hno & _)];
    [|contradiction].
  unfold bound_event_id in Hk. rewrite Hq in Hk. rewrite Hp.
  set (t1 := Store.insert_on_conflict_do_nothing now ps t).
  assert (Hone : List.length (Store.rows_of k t1) = 1%nat)
    by now apply insert_one_row.
  assert (Hagain : forall now', h now' t1
            = {| response := webhook_ok; queries := [ps]; payments := t1 |}).
  { intros now'. rewrite Hrun. simpl. f_equal. now apply insert_again with (k := k). }
  split; [exact Hone|]. split; [|split].
  - intros now'. now rewrite Hagain.
  - intros times. unfold redeliver.
    induction times as [|now' times IH]; simpl; [reflexivity|].
    now rewrite Hagain.
  - intros t2 Hd. apply deliveries_keep_one_row with (t := t1); trivial.
    + now apply insert_keeps_unique.
    + intros Hnil. rewrite Hnil in Hone. discriminate.
Qed.

(** C8. Frame of the webhook handler, for either file: an acknowledged
    request has issued exactly one query, the conditional insert, and the
    table after it is the table before it with at most that one row
    appended; a request that is not acknowledged leaves the table as it
    was. *)
Theorem webhook_frame h now t :
  handler h ->
  (response (h now t) = webhook_ok ->
   exists ps,
     queries (h now t) = [ps]
     /\ payments (h now t) = Store.insert_on_conflict_do_nothing now ps t
     /\ (payments (h now t) = t \/ payments (h now t) = t ++ [row_of now ps]))
  /\ (response (h now t) <> webhook_ok ->
      queries (h now t) = [] /\ payments (h now t) = t).
Proof.
  intros Hh. destruct (handler_tidy h Hh) as (a & Ha & Hrun). rewrite Hrun.
  destruct (run_cases a now t Ha) as [(Hok & ps & _ & Hq & Hp)|(Hno & Hq & Hp)].
  - split; [|intros Hne; contradiction].
    intros _. exists ps. split; [exact Hq|]. split; [exact Hp|].
    rewrite Hp. destruct (insert_cases now ps t) as [[_ ->]|[_ ->]]; auto.
  - split; [intros Hok; contradiction|]. intros _. split; assumption.
Qed.

End WebhookStore.

(** ** Order creation *)

Section OrderCreation.

Import JS App Spec.
Local Open Scope string_scope.

Lemma positive_number (x : Num.number) :
  Num.ltb Num.zero x = true ->
  Num.is_nan x = false /\ Num.is_zero x = false /\ Num.leb x Num.zero = false.
Proof.
  destruct x as [s|s| |s m e]; simpl; try discriminate.
  - destruct s; [discriminate|]. now intros _.
  - destruct s; [discriminate|]. now intros _.
Qed.

Lemma not_positive_number (x : Num.number) :
  Num.is_nan x || Num.leb x Num.zero = negb (Num.ltb Num.zero x).
Proof. destruct x as [s|s| |s m e]; try destruct s; reflexivity. Qed.

Lemma string_to_number_empty : StringToNumber "" = Num.zero.
Proof. reflexivity. Qed.

(** a value that is not truthy is a primitive: it coerces without an
    exception, and to no number above zero *)
Lemma falsy_number (v : value) :
  truthy v = false -> exists x, ToNumber v = Ok x /\ Num.ltb Num.zero x = false.
Proof.
  destruct v as [| |b|x|s|elems|props]; cbn [truthy]; intros H; try discriminate H.
  - exists Num.NaN. split; reflexivity.
  - exists Num.zero. split; reflexivity.
  - destruct b; [discriminate H|]. exists Num.zero. split; reflexivity.
  - exists x. split; [reflexivity|].
    destruct x as [sg|sg| |sg m e]; try destruct sg; try reflexivity; discriminate H.
  - destruct (String.eqb_spec s ""); [subst s|discriminate H].
    exists Num.zero. split; reflexivity.
Qed.

Lemma throws_truthy (v : value) (e : exn) : ToNumber v = Throw e -> truthy v = true.
Proof.
  intros E. destruct (truthy v) eqn:Ht; [reflexivity|].
  destruct (falsy_number v Ht) as (x & E' & _). rewrite E in E'. discriminate E'.
Qed.

(** the guard of the CommonJS handler, [!amount || isNaN(amount) || amount <= 0],
    on an amount that coerces to the number [x]: it holds exactly when [x] is
    not above zero *)
Lemma cjs_amount_guard (amount : value) (x : Num.number) :
  ToNumber amount = Ok x ->
  or_test (Ok (negb (truthy amount))) (or_test (isNaN amount) (le_number amount Num.zero))
  = Ok (negb (Num.ltb Num.zero x)).
Proof.
  intros E. unfold or_test, isNaN, le_number. rewrite E. cbn [JS.bind].
  destruct (truthy amount) eqn:Ht; cbn [negb].
  - rewrite <- not_positive_number. destruct (Num.is_nan x); reflexivity.
  - destruct (falsy_number amount Ht) as (x' & E' & Hx').
    rewrite E in E'. injection E' as <-. now rewrite Hx'.
Qed.

(** the guard of [server.js], [!amount || amount <= 0], on such an amount *)
Lemma esm_amount_guard (amount : value) (x : Num.number) :
  ToNumber amount = Ok x ->
  or_test (Ok (negb (truthy amount))) (le_number amount Num.zero)
  = Ok (negb (truthy amount) || Num.leb x Num.zero).
Proof.
  intros E. unfold or_test, le_number. rewrite E. cbn [JS.bind].
  destruct (truthy amount); reflexivity.
Qed.

(** both guards on an amount whose coercion throws: the amount is truthy, so
    the coercion is reached, and the exception leaves the guard *)
Lemma amount_guard_throws (amount : value) (e : exn) :
  ToNumber amount = Throw e ->
  or_test (Ok (negb (truthy amount))) (or_test (isNaN amount) (le_number amount Num.zero))
  = Throw e
  /\ or_test (Ok (negb (truthy amount))) (le_number amount Num.zero) = Throw e.
Proof.
  intros E. unfold or_test, isNaN, le_number.
  rewrite E, (throws_truthy _ _ E). split; reflexivity.
Qed.

Lemma get_object (props : list (string * value)) (k : string) :
  get (VObject props) k = Ok (lookup k props).
Proof. reflexivity. Qed.

Lemma destructure_object (source : string) (props : list (string * value)) (k : string) :
  destructure source (VObject props) k = Ok (lookup k props).
Proof. reflexivity. Qed.

(** the CommonJS handler on an object body, in one equation *)
Lemma cjs_create_order_object razorpay now props :
  CJS.create_order razorpay now (VObject props) =
  match ToNumber (lookup "amount" props) with
  | Ok a =>
      if Num.ltb Num.zero a then
        let options :=
          {| amount := Num.round (Num.mul a (Num.of_Z 100));
             currency := with_default (lookup "currency" props) (VString "INR");
             receipt := "receipt_" ++ Text.string_of_Z now |} in
        {| order_response := match razorpay options with
                             | Ok order => order_created order
                             | Throw err => order_failed err
                             end;
           gateway_calls := [options] |}
      else {| order_response := invalid_amount; gateway_calls := [] |}
  | Throw err => {| order_response := order_failed err; gateway_calls := [] |}
  end.
Proof.
  unfold CJS.create_order. rewrite !destructure_object. cbn [JS.bind].
  destruct (ToNumber (lookup "amount" props)) as [x|e] eqn:E.
  - rewrite (cjs_amount_guard _ _ E). unfold mul_number. rewrite E. cbn [JS.bind].
    destruct (Num.ltb Num.zero x); cbn [negb]; cbv iota; [|reflexivity].
    cbv zeta. destruct (razorpay _); reflexivity.
  - rewrite (proj1 (amount_guard_throws _ _ E)). reflexivity.
Qed.

(** the handler of [server.js] on an object body, in one equation *)
Lemma esm_create_order_object razorpay now props :
  ESM.create_order razorpay now (VObject props) =
  match ToNumber (lookup "amount" props) with
  | Ok a =>
      if negb (truthy (lookup "amount" props)) || Num.leb a Num.zero then
        {| order_response := invalid_amount; gateway_calls := [] |}
      else
        let options :=
          {| amount := Num.mul a (Num.of_Z 100);
             currency := with_default (lookup "currency" props) (VString "INR");
             receipt := "receipt_" ++ Text.string_of_Z now |} in
        {| order_response := match razorpay options with
                             | Ok order => order_created order
                             | Throw err => order_failed err
                             end;
           gateway_calls := [options] |}
  | Throw err => {| order_response := order_failed err; gateway_calls := [] |}
  end.
Proof.
  unfold ESM.create_order. rewrite !destructure_object. cbn [JS.bind].
  destruct (ToNumber (lookup "amount" props)) as [x|e] eqn:E.
  - rewrite (esm_amount_guard _ _ E). unfold mul_number. rewrite E. cbn [JS.bind].
    destruct (negb (truthy (lookup "amount" props)) || Num.leb x Num.zero); cbv iota;
      [reflexivity|].
    cbv zeta. destruct (razorpay _); reflexivity.
  - rewrite (proj2 (amount_guard_throws _ _ E)). reflexivity.
Qed.

(** X15. The CommonJS handler on the amount of an object body.  When the
    amount can be made a number, the answer is "Invalid amount", without a
    gateway call, exactly when that number is not above zero (so [!amount]
    adds nothing to [isNaN(amount) || amount <= 0]), and otherwise the
    gateway is called once, with the number times 100, rounded.  When it
    cannot (the conversion throws), the answer is 500 with the exception's
    message, and the gateway is not called. *)
Lemma cjs_invalid_amount_iff razorpay now props :
  let o := CJS.create_order razorpay now (VObject props) in
  let a := ToNumber (lookup "amount" props) in
  (order_response o = invalid_amount <-> exists x, a = Ok x /\ Num.ltb Num.zero x = false)
  /\ (forall x, a = Ok x -> Num.ltb Num.zero x = false -> gateway_calls o = [])
  /\ (forall x, a = Ok x -> Num.ltb Num.zero x = true ->
      List.map amount (gateway_calls o) = [Num.round (Num.mul x (Num.of_Z 100))])
  /\ (forall e, a = Throw e ->
      o = {| order_response := order_failed e; gateway_calls := [] |}).
Proof.
  intros o a. subst o a. rewrite cjs_create_order_object.
  destruct (ToNumber (lookup "amount" props)) as [x|e].
  - destruct (Num.ltb Num.zero x) eqn:Hpos; cbv zeta;
      cbn [order_response gateway_calls List.map amount].
    + split; [split|].
      * destruct (razorpay _); intros H; discriminate H.
      * intros (x' & [= <-] & Hx'). rewrite Hpos in Hx'. discriminate Hx'.
      * split; [intros x' [= <-] Hx'; rewrite Hpos in Hx'; discriminate Hx'|].
        split; [intros x' [= <-] _; reflexivity|]. intros e H. discriminate H.
    + split; [split; [intros _; now exists x|reflexivity]|].
      split; [reflexivity|].
      split; [intros x' [= <-] Hx'; rewrite Hpos in Hx'; discriminate Hx'|].
      intros e H. discriminate H.
  - cbn [order_response gateway_calls]. split; [split|].
    + intros H. discriminate H.
    + intros (x & H & _). discriminate H.
    + split; [intros x H; discriminate H|]. split; [intros x H; discriminate H|].
      intros e' [= <-]. reflexivity.
Qed.

(** C9. The CommonJS [create-order] accepts an amount given as a string
    that reads as a number above zero: the request is not answered with
    "Invalid amount", and the gateway is called once, with the string's
    number times 100, rounded, and with currency INR when none is given
    (for "100": with 10000). *)
Theorem numeric_string_amount_accepted razorpay now body s :
  get_opt body "amount" = VString s ->
  Num.ltb Num.zero (StringToNumber s) = true ->
  let o := CJS.create_order razorpay now body in
  order_response o <> invalid_amount
  /\ gateway_calls o =
       [ {| amount := Num.round (Num.mul (StringToNumber s) (Num.of_Z 100));
            currency := with_default (get_opt body "currency") (VString "INR");
            receipt := "receipt_" ++ Text.string_of_Z now |} ].
Proof.
  intros Hamount Hpos o. subst o.
  destruct body as [| |b|x|s'|elems|props]; try discriminate Hamount.
  cbn [get_opt] in *. rewrite cjs_create_order_object, Hamount.
  cbn [ToNumber]. rewrite Hpos. cbv zeta. cbn [order_response gateway_calls].
  split; [|reflexivity].
  destruct (razorpay _); intros H; discriminate H.
Qed.

End OrderCreation.

(** ** Where [server.js] departs from the CommonJS server *)

Section ServerJs.

Import JS App Spec Sample.
Local Open Scope string_scope.

(** C1. [spaced_signature] is the HMAC-SHA256 of the bytes of [spaced_raw].
    The CommonJS handler, which signs the bytes received, accepts the
    request.  [server.js] signs [JSON.stringify] of the parsed body, which
    has lost the blanks, and answers 400 "Invalid signature" to the same
    request. *)
Theorem server_js_signs_reserialised_body now t :
  Crypto.createHmac_sha256_hex secret spaced_raw = spaced_signature
  /\ response (CJS.webhook (Some secret) (cjs_request spaced_signature spaced_raw) now t)
     = webhook_ok
  /\ ESM.bodyParser_json spaced_raw = Some (VObject [("id", VString "evt_1")])
  /\ JSON.stringify (VObject [("id", VString "evt_1")]) = Some (Text.q "{'id':'evt_1'}")
  /\ ESM.post_webhook (Some secret) (Some spaced_signature) spaced_raw now t
     = {| response := invalid_signature; queries := []; payments := t |}.
Proof.
  assert (Hparse : ESM.bodyParser_json spaced_raw = Some (VObject [("id", VString "evt_1")]))
    by (vm_compute; reflexivity).
  assert (Hcjs : CJS.webhook_try (Some secret) (cjs_request spaced_signature spaced_raw)
                 = Ok (webhook_ok,
                       [[VString "evt_1"; VString "unknown"; VNumber Num.zero;
                         VString "INR"; VNull; VNull]]))
    by (vm_compute; reflexivity).
  assert (Hesm : ESM.webhook_try (Some secret)
                   (esm_request spaced_signature (VObject [("id", VString "evt_1")]))
                 = Ok (invalid_signature, []))
    by (vm_compute; reflexivity).
  split; [vm_compute; reflexivity|]. split.
  - unfold CJS.webhook. now rewrite Hcjs.
  - split; [exact Hparse|]. split; [vm_compute; reflexivity|].
    unfold ESM.post_webhook. rewrite Hparse. unfold ESM.webhook.
    fold (esm_request spaced_signature (VObject [("id", VString "evt_1")])).
    now rewrite Hesm.
Qed.

(** C3. With [RAZORPAY_WEBHOOK_SECRET] unset, [server.js] answers every
    webhook request with 500 "Webhook error" ([createHmac] throws on the
    missing key), where the CommonJS handler answers 400; neither touches
    the table. *)
Theorem server_js_missing_secret_answers_500 (req : ESM.request) (req' : CJS.request) now t :
  ESM.webhook None req now t
  = {| response := Http.status_send 500 "Webhook error"; queries := []; payments := t |}
  /\ CJS.webhook None req' now t
     = {| response := Http.status_send 400 "Missing signature or webhook secret";
          queries := []; payments := t |}.
Proof.
  split.
  - unfold ESM.webhook, ESM.webhook_try. simpl. reflexivity.
  - unfold CJS.webhook, CJS.webhook_try.
    destruct (CJS.signature_header req'); reflexivity.
Qed.

(** C4. For the event [failed_event], which has the event type
    "payment.failed" and no payment entity, [server.js] stores the status
    "created"; the CommonJS handler stores the event type. *)
Theorem server_js_status_falls_back_to_created now :
  payments (ESM.webhook (Some secret) (esm_request failed_signature failed_event) now [])
  = [ {| Store.event_id := Some "evt_2"; Store.status := Some "created";
         Store.amount := Some "0"; Store.currency := Some "INR";
         Store.email := None; Store.contact := None; Store.created_at := now |} ]
  /\ payments (CJS.webhook (Some secret) (cjs_request failed_signature failed_raw) now [])
     = [ {| Store.event_id := Some "evt_2"; Store.status := Some "payment.failed";
            Store.amount := Some "0"; Store.currency := Some "INR";
            Store.email := None; Store.contact := None; Store.created_at := now |} ].
Proof.
  split.
  - vm_compute. reflexivity.
  - vm_compute. reflexivity.
Qed.

(** C5. [server.js] lets the amount "abc" through: whatever the gateway
    does, it is called, with the amount NaN, and the answer is not
    "Invalid amount".  The CommonJS handler answers "Invalid amount" and
    makes no call.  Both reject 0 and -5 without a call. *)
Theorem server_js_accepts_non_numeric_amount (razorpay : gateway) now :
  let abc := amount_only (VString "abc") in
  gateway_calls (ESM.create_order razorpay now abc)
  = [ {| amount := Num.NaN; currency := VString "INR";
         receipt := "receipt_" ++ Text.string_of_Z now |} ]
  /\ Http.status (order_response (ESM.create_order razorpay now abc)) <> 400
  /\ CJS.create_order razorpay now abc
     = {| order_response := invalid_amount; gateway_calls := [] |}
  /\ (forall n, In n [0; -5] ->
      ESM.create_order razorpay now (amount_only (VNumber (Num.of_Z n)))
      = {| order_response := invalid_amount; gateway_calls := [] |}
      /\ CJS.create_order razorpay now (amount_only (VNumber (Num.of_Z n)))
         = {| order_response := invalid_amount; gateway_calls := [] |}).
Proof.
  intros abc. subst abc. unfold amount_only.
  assert (Hesm : negb (truthy (VString "abc"))
                 || Num.leb (StringToNumber "abc") Num.zero = false)
    by (vm_compute; reflexivity).
  assert (Hcjs : Num.ltb Num.zero (StringToNumber "abc") = false)
    by (vm_compute; reflexivity).
  assert (Hnan : Num.mul (StringToNumber "abc") (Num.of_Z 100) = Num.NaN)
    by (vm_compute; reflexivity).
  rewrite esm_create_order_object, cjs_create_order_object.
  cbn [lookup String.eqb Ascii.eqb Bool.eqb ToNumber]. rewrite Hesm, Hcjs, Hnan. cbv zeta.
  cbn [order_response gateway_calls].
  split; [reflexivity|]. split; [destruct (razorpay _); discriminate|].
  split; [reflexivity|].
  intros n [<-|[<-|[]]];
    rewrite esm_create_order_object, cjs_create_order_object;
    cbn [lookup String.eqb Ascii.eqb Bool.eqb ToNumber];
    match goal with
    | |- context [Num.ltb Num.zero ?x] =>
        replace (Num.ltb Num.zero x) with false by (vm_compute; reflexivity)
    end;
    match goal with
    | |- context [negb ?a || ?b] =>
        replace (negb a || b) with true by (vm_compute; reflexivity)
    end;
    split; reflexivity.
Qed.

(** C6. For the amount 19.99 [server.js] calls the gateway with
    1998.9999999999998, which is no integer; the CommonJS handler rounds and
    calls it with 1999.  For 100 both call it with 10000 and currency INR. *)
Theorem server_js_does_not_round (razorpay : gateway) now :
  let a := amount_only (VNumber (Num.of_decimal false 1999 (-2))) in
  called_amounts (ESM.create_order razorpay now a) = ["1998.9999999999998"]
  /\ List.map (fun c => Num.is_integer (amount c)) (gateway_calls (ESM.create_order razorpay now a))
     = [false]
  /\ called_amounts (CJS.create_order razorpay now a) = ["1999"]
  /\ (let b := amount_only (VNumber (Num.of_Z 100)) in
      List.map (fun c => (Num.to_string (amount c), currency c))
        (gateway_calls (ESM.create_order razorpay now b)) = [("10000", VString "INR")]
      /\ List.map (fun c => (Num.to_string (amount c), currency c))
           (gateway_calls (CJS.create_order razorpay now b)) = [("10000", VString "INR")]).
Proof.
  intros a. subst a. unfold amount_only, called_amounts.
  rewrite !esm_create_order_object, !cjs_create_order_object.
  cbn [lookup String.eqb Ascii.eqb Bool.eqb ToNumber].
  repeat match goal with
         | |- context [Num.ltb Num.zero ?x] =>
             replace (Num.ltb Num.zero x) with true by (vm_compute; reflexivity)
         | |- context [negb ?a || ?b] =>
             replace (negb a || b) with false by (vm_compute; reflexivity)
         end.
  cbv zeta. cbn [gateway_calls List.map amount currency].
  repeat split; vm_compute; reflexivity.
Qed.

(** C7. [server.js] parses the body before it verifies anything: the
    truncated body is answered by the body parser, with status 400, whatever
    the secret and the signature are, and so also when the signature is the
    right one for these bytes.  The CommonJS handler verifies first: it
    answers 400 "Invalid signature" to a wrong signature and 500 to the
    right one, and stores nothing. *)
Theorem server_js_parses_before_verifying secret' signature now t :
  ESM.post_webhook secret' signature truncated_raw now t
  = {| response := {| Http.status := 400; Http.body := Http.ErrorPage |};
       queries := []; payments := t |}
  /\ Crypto.createHmac_sha256_hex secret truncated_raw = truncated_signature
  /\ CJS.webhook (Some secret) (cjs_request truncated_signature truncated_raw) now t
     = {| response := Http.status_send 500 "Webhook error"; queries := []; payments := t |}
  /\ CJS.webhook (Some secret) (cjs_request scenario_signature truncated_raw) now t
     = {| response := Http.status_send 400 "Invalid signature"; queries := [];
          payments := t |}.
Proof.
  assert (Hparse : ESM.bodyParser_json truncated_raw = None) by (vm_compute; reflexivity).
  assert (Hright : CJS.webhook_try (Some secret) (cjs_request truncated_signature truncated_raw)
                   = Throw (SyntaxError "Unexpected token in JSON"))
    by (vm_compute; reflexivity).
  assert (Hwrong : CJS.webhook_try (Some secret) (cjs_request scenario_signature truncated_raw)
                   = Ok (invalid_signature, []))
    by (vm_compute; reflexivity).
  split; [unfold ESM.post_webhook; now rewrite Hparse|].
  split; [vm_compute; reflexivity|].
  unfold CJS.webhook. rewrite Hright, Hwrong. split; reflexivity.
Qed.

End ServerJs.

(** ** Facts about the digest and the parser *)

Section Library.

Import JS Spec.

Lemma compress_length (h : list Z) (block : Crypto.bytes) :
  List.length h = 8%nat -> List.length (Crypto.compress h block) = 8%nat.
Proof.
  intros Hh. unfold Crypto.compress.
  rewrite length_map, length_combine, Hh. reflexivity.
Qed.

Lemma sha256_state_length (blocks : list Crypto.bytes) (h : list Z) :
  List.length h = 8%nat -> List.length (fold_left Crypto.compress blocks h) = 8%nat.
Proof.
  revert h. induction blocks as [|b blocks IH]; simpl; intros h Hh; [exact Hh|].
  apply IH, compress_length, Hh.
Qed.

Lemma sha256_not_empty (msg : Crypto.bytes) : Crypto.sha256 msg <> [].
Proof.
  unfold Crypto.sha256.
  pose proof (sha256_state_length
                (Crypto.chunks 64 (List.length (Crypto.pad msg)) (Crypto.pad msg))
                Crypto.H0 eq_refl) as Hlen.
  destruct (fold_left _ _ _) as [|w ws]; [discriminate Hlen|].
  simpl. destruct (Crypto.be_bytes 3 (w / 256)); discriminate.
Qed.

(** a hex digest is never the empty string *)
Lemma digest_not_empty (key data : string) :
  String.eqb (Crypto.createHmac_sha256_hex key data) "" = false.
Proof.
  unfold Crypto.createHmac_sha256_hex, Crypto.hmac_sha256.
  match goal with |- context [Crypto.hex ?bs] =>
    assert (Hne : bs <> []) by apply sha256_not_empty;
    destruct bs as [|b bs']; [contradiction|]
  end.
  reflexivity.
Qed.

Lemma atom_defined (acc : list ascii) (v : value) :
  JSON.atom_value acc = Some v -> v <> VUndefined.
Proof.
  unfold JSON.atom_value.
  repeat match goal with
         | |- context [if ?b then _ else _] => destruct b
         end;
    try (intros [= <-]; discriminate).
  destruct (JSON.json_number _); intros [= <-]; discriminate.
Qed.

Lemma punct_defined (c : ascii) (t : JSON.token) :
  JSON.punct c = Some t -> defined_token t.
Proof.
  unfold JSON.punct. repeat break_match; intros [= <-]; exact I.
Qed.

Lemma lex_idle_defined (c : ascii) ts st :
  JSON.lex_idle c = Some (ts, st) -> Forall defined_token ts.
Proof.
  unfold JSON.lex_idle.
  destruct (JSON.is_ws c); [intros [= <- <-]; constructor|].
  destruct (Text.code c =? 34); [intros [= <- <-]; constructor|].
  destruct (JSON.punct c) as [t|] eqn:Hp.
  - intros [= <- <-]. repeat constructor. exact (punct_defined _ _ Hp).
  - destruct (JSON.atom_char c); [|discriminate]. intros [= <- <-]. constructor.
Qed.

Lemma lex_step_defined st (c : ascii) ts st' :
  JSON.lex_step st c = Some (ts, st') -> Forall defined_token ts.
Proof.
  destruct st; simpl.
  - apply lex_idle_defined.
  - repeat break_match; try discriminate; intros [= <- <-]; repeat constructor.
  - repeat break_match; try discriminate; intros [= <- <-]; repeat constructor.
  - repeat break_match; try discriminate; intros [= <- <-]; repeat constructor.
  - destruct (JSON.atom_char c); [intros [= <- <-]; constructor|].
    destruct (JSON.atom_value acc) as [v|] eqn:Hv; [|discriminate].
    destruct (JSON.lex_idle c) as [[ts0 st0]|] eqn:Hidle; [|discriminate].
    intros [= <- <-]. constructor; [exact (atom_defined _ _ Hv)|].
    exact (lex_idle_defined _ _ _ Hidle).
Qed.

Lemma lex_defined (l : list ascii) st ts :
  JSON.lex st l = Some ts -> Forall defined_token ts.
Proof.
  revert st ts. induction l as [|c l IH]; simpl; intros st ts.
  - destruct st; try discriminate.
    + intros [= <-]. constructor.
    + destruct (JSON.atom_value acc) as [v|] eqn:Hv; [|discriminate].
      intros [= <-]. repeat constructor. exact (atom_defined _ _ Hv).
  - destruct (JSON.lex_step st c) as [[ts0 st0]|] eqn:Hstep; [|discriminate].
    destruct (JSON.lex st0 l) as [ts1|] eqn:Hrest; [|discriminate].
    intros [= <-]. apply Forall_app. split.
    + exact (lex_step_defined _ _ _ _ Hstep).
    + exact (IH _ _ Hrest).
Qed.

Lemma complete_defined v stack stack' m :
  v <> VUndefined -> JSON.complete v stack = Some (stack', m) -> defined_mode m.
Proof.
  intros Hv. destruct stack as [|[es|ps [k|]] st]; simpl; intros [= <- <-];
    simpl; auto.
Qed.

Lemma parse_step_defined stack m t stack' m' :
  defined_token t -> JSON.parse_step stack m t = Some (stack', m') -> defined_mode m'.
Proof.
  intros Ht. destruct m, t; simpl; try discriminate;
    repeat match goal with
           | |- context [match ?x with _ => _ end] => destruct x
           end;
    try discriminate;
    try (intros [= <- <-]; exact I);
    try (apply complete_defined; solve [discriminate | exact Ht]).
Qed.

Lemma parse_tokens_defined ts stack m v :
  Forall defined_token ts -> defined_mode m ->
  JSON.parse_tokens stack m ts = Some v -> v <> VUndefined.
Proof.
  revert stack m. induction ts as [|t ts IH]; simpl; intros stack m Hts Hm.
  - destruct stack; [|discriminate]. destruct m; try discriminate.
    intros [= <-]. exact Hm.
  - destruct (JSON.parse_step stack m t) as [[stack' m']|] eqn:Hstep; [|discriminate].
    inversion Hts as [|? ? Ht Hts']; subst.
    apply IH; [exact Hts'|]. exact (parse_step_defined _ _ _ _ _ Ht Hstep).
Qed.

(** [JSON.parse] never yields [undefined] *)
Lemma parse_defined (s : string) (v : value) :
  JSON.parse s = Some v -> v <> VUndefined.
Proof.
  unfold JSON.parse.
  destruct (JSON.lex JSON.LIdle (Text.chars s)) as [ts|] eqn:Hlex; [|discriminate].
  apply parse_tokens_defined; [exact (lex_defined _ _ _ Hlex)|exact I].
Qed.

Lemma get_defined (v : value) (k : string) :
  nullish v = false -> get v k = Ok (get_opt v k).
Proof. destruct v; simpl; intros H; try discriminate; reflexivity. Qed.

End Library.

(** ** The CommonJS webhook handler *)

Section CommonJsWebhook.

Import JS App Spec Sample.
Local Open Scope string_scope.

(** what the handler does once the signature and the secret are there: it
    compares the header with the digest of the bytes received *)
Lemma cjs_webhook_verifies_raw_bytes webhookSecret signature raw :
  webhookSecret <> "" -> signature <> "" ->
  CJS.webhook_try (Some webhookSecret) (cjs_request signature raw) =
  if String.eqb signature (Crypto.createHmac_sha256_hex webhookSecret raw) then
    JS.bind (CJS.JSON_parse raw) (fun event =>
    JS.bind (get event "payload") (fun payload =>
    let paymentEntity := or_else (get_opt (get_opt payload "payment") "entity") VNull in
    JS.bind (get event "id") (fun id =>
    JS.bind (get event "event") (fun event_type =>
    Ok (webhook_ok,
        [[ id;
           or_else (or_else (get_opt paymentEntity "status") event_type) (VString "unknown");
           or_else (get_opt paymentEntity "amount") (VNumber Num.zero);
           or_else (get_opt paymentEntity "currency") (VString "INR");
           or_else (get_opt paymentEntity "email") VNull;
           or_else (get_opt paymentEntity "contact") VNull ]])))))
  else Ok (invalid_signature, []).
Proof.
  intros Hsecret Hsig. unfold CJS.webhook_try, cjs_request. cbn [CJS.signature_header CJS.body].
  apply String.eqb_neq in Hsecret. apply String.eqb_neq in Hsig.
  rewrite Hsecret, Hsig. cbn [orb].
  cbn [CJS.update CJS.toString JS.bind].
  destruct (String.eqb signature (Crypto.createHmac_sha256_hex webhookSecret raw));
    reflexivity.
Qed.

(** a signature that is not the digest of the bytes received is answered
    400, and nothing is stored *)
Lemma cjs_rejects_mismatch webhookSecret signature raw now t :
  webhookSecret <> "" -> signature <> "" ->
  signature <> Crypto.createHmac_sha256_hex webhookSecret raw ->
  CJS.webhook (Some webhookSecret) (cjs_request signature raw) now t
  = {| response := invalid_signature; queries := []; payments := t |}.
Proof.
  intros Hsecret Hsig Hne. unfold CJS.webhook.
  rewrite cjs_webhook_verifies_raw_bytes by assumption.
  apply String.eqb_neq in Hne. rewrite Hne. reflexivity.
Qed.

(** the signature that is the digest passes the check: the answer is not a 400 *)
Lemma cjs_accepts_match webhookSecret raw now t :
  webhookSecret <> "" ->
  Http.status
    (response (CJS.webhook (Some webhookSecret)
                 (cjs_request (Crypto.createHmac_sha256_hex webhookSecret raw) raw) now t))
  <> 400.
Proof.
  intros Hsecret. unfold CJS.webhook.
  rewrite cjs_webhook_verifies_raw_bytes;
    [|exact Hsecret|apply String.eqb_neq, digest_not_empty].
  rewrite String.eqb_refl. unfold JS.bind.
  repeat break_match; cbn [run_webhook response]; discriminate.
Qed.

(** X6. A body that reaches the CommonJS handler already parsed (an
    object, an array, anything but a string) is no argument for
    [hmac.update]: with a secret and a signature present the answer is 500
    "Webhook error", whatever the signature, and nothing is stored. *)
Lemma cjs_parsed_body_is_answered_500 webhookSecret signature v now t :
  webhookSecret <> "" -> signature <> "" -> (forall s, v <> VString s) ->
  CJS.webhook (Some webhookSecret)
    {| CJS.signature_header := Some signature; CJS.body := CJS.Parsed v |} now t
  = {| response := Http.status_send 500 "Webhook error"; queries := []; payments := t |}.
Proof.
  intros Hsecret Hsig Hv. unfold CJS.webhook, CJS.webhook_try.
  cbn [CJS.signature_header CJS.body].
  apply String.eqb_neq in Hsecret. apply String.eqb_neq in Hsig.
  rewrite Hsecret, Hsig. cbn [orb].
  destruct v; try reflexivity. now destruct (Hv s).
Qed.

(** X3. Without a secret or without a signature header (unset, or the empty
    string) the CommonJS handler answers 400 "Missing signature or webhook
    secret", whatever the body is, and nothing is stored. *)
Lemma cjs_missing_credentials secret' req now t :
  secret' = None \/ secret' = Some "" \/ CJS.signature_header req = None
  \/ CJS.signature_header req = Some "" ->
  CJS.webhook secret' req now t
  = {| response := Http.status_send 400 "Missing signature or webhook secret";
       queries := []; payments := t |}.
Proof.
  unfold CJS.webhook, CJS.webhook_try.
  intros [-> | [-> | [-> | ->]]]; try reflexivity.
  - destruct (CJS.signature_header req); reflexivity.
  - destruct (CJS.signature_header req) as [sg|]; [|reflexivity].
    now rewrite orb_true_r.
  - destruct secret'; reflexivity.
Qed.

(** the handler handed the bytes as a [Buffer]: a body that carries the right
    signature for its bytes and is not JSON is answered 500 "Webhook error",
    and nothing is stored *)
Lemma cjs_parse_failure_is_500 webhookSecret raw now t :
  webhookSecret <> "" -> JSON.parse raw = None ->
  CJS.webhook (Some webhookSecret)
    (cjs_request (Crypto.createHmac_sha256_hex webhookSecret raw) raw) now t
  = {| response := Http.status_send 500 "Webhook error"; queries := []; payments := t |}.
Proof.
  intros Hsecret Hparse. unfold CJS.webhook.
  rewrite cjs_webhook_verifies_raw_bytes;
    [|exact Hsecret|apply String.eqb_neq, digest_not_empty].
  rewrite String.eqb_refl. unfold CJS.JSON_parse. rewrite Hparse. reflexivity.
Qed.

(** the handler handed the bytes as a [Buffer]: what it binds for a body
    that passes the check and parses to something other than [null] is the
    top-level [id], and of [payload.payment.entity] the status, amount,
    currency, email and contact, each replaced when it is missing or falsy:
    the status by the top-level [event] and then "unknown", the others by 0,
    "INR", [null] and [null] *)
Lemma cjs_stored_fields webhookSecret raw event now t :
  webhookSecret <> "" -> JSON.parse raw = Some event -> event <> VNull ->
  let paymentEntity := or_else (entity_of event) VNull in
  queries (CJS.webhook (Some webhookSecret)
             (cjs_request (Crypto.createHmac_sha256_hex webhookSecret raw) raw) now t)
  = [[ get_opt event "id";
       or_else (or_else (get_opt paymentEntity "status") (get_opt event "event"))
               (VString "unknown");
       or_else (get_opt paymentEntity "amount") (VNumber Num.zero);
       or_else (get_opt paymentEntity "currency") (VString "INR");
       or_else (get_opt paymentEntity "email") VNull;
       or_else (get_opt paymentEntity "contact") VNull ]].
Proof.
  intros Hsecret Hparse Hnull paymentEntity. subst paymentEntity.
  assert (Hlive : nullish event = false).
  { pose proof (parse_defined _ _ Hparse) as Hdef.
    destruct event; try reflexivity; contradiction. }
  unfold CJS.webhook.
  rewrite cjs_webhook_verifies_raw_bytes;
    [|exact Hsecret|apply String.eqb_neq, digest_not_empty].
  rewrite String.eqb_refl. unfold CJS.JSON_parse. rewrite Hparse.
  cbn [JS.bind]. rewrite !(get_defined event) by exact Hlive. reflexivity.
Qed.

(** what the handler itself does with an event without a payment entity when
    it is handed the bytes as a [Buffer] (which the application as mounted
    never does, see [CJS.post_webhook]): a body that carries the HMAC-SHA256
    of its bytes, parses to a value other than [null] and has no
    [payload.payment.entity] is acknowledged after one conditional insert
    keyed on the top-level [id], with the fallbacks in the other fields *)
Lemma cjs_handler_on_event_without_entity webhookSecret signature raw event now t :
  webhookSecret <> "" ->
  signature = Crypto.createHmac_sha256_hex webhookSecret raw ->
  JSON.parse raw = Some event ->
  event <> VNull ->
  entity_of event = VUndefined ->
  let o := CJS.webhook (Some webhookSecret) (cjs_request signature raw) now t in
  let ps := [ get_opt event "id";
              or_else (get_opt event "event") (VString "unknown");
              VNumber Num.zero; VString "INR"; VNull; VNull ] in
  response o = webhook_ok
  /\ queries o = [ps]
  /\ payments o = Store.insert_on_conflict_do_nothing now ps t.
Proof.
  intros Hsecret -> Hparse Hnull Hentity o ps. subst o.
  assert (Hlive : nullish event = false).
  { pose proof (parse_defined _ _ Hparse) as Hdef.
    destruct event; try reflexivity; contradiction. }
  assert (Htry : CJS.webhook_try (Some webhookSecret)
                   (cjs_request (Crypto.createHmac_sha256_hex webhookSecret raw) raw)
                 = Ok (webhook_ok, [ps])).
  { rewrite cjs_webhook_verifies_raw_bytes; [|exact Hsecret|].
    - rewrite String.eqb_refl. unfold CJS.JSON_parse. rewrite Hparse.
      cbn [JS.bind]. rewrite !(get_defined event) by exact Hlive. cbn [JS.bind].
      fold (entity_of event). rewrite Hentity. reflexivity.
    - apply String.eqb_neq, digest_not_empty. }
  unfold CJS.webhook. rewrite Htry. cbn [run_webhook response queries payments fold_left].
  repeat apply conj; reflexivity.
Qed.

(** what [express.json()] lets through is an object or an array, and
    [hmac.update] takes neither *)
Lemma cjs_update_refuses_parsed (raw : string) (parsed : value) :
  CJS.express_json raw = Some parsed ->
  exists e, CJS.update (CJS.bodyParser_raw (Some parsed) raw) = Throw e.
Proof.
  unfold CJS.express_json. intros H.
  assert (Hkind : (exists props, parsed = VObject props) \/ (exists elems, parsed = VArray elems)).
  { destruct raw as [|c raw'].
    - left. exists []. now injection H as <-.
    - destruct (JSON.parse (String c raw')) as [[| | | | |elems|props]|];
        try discriminate H; injection H as <-; [right|left]; eexists; reflexivity. }
  destruct Hkind as [[props ->]|[elems ->]]; eexists; reflexivity.
Qed.

(** the CommonJS server from the bytes on the wire, in one equation *)
Lemma cjs_post_webhook_cases secret' signature raw now t :
  CJS.post_webhook secret' signature raw now t =
  {| response :=
       match CJS.express_json raw with
       | None => {| Http.status := 400; Http.body := Http.ErrorPage |}
       | Some _ =>
           if present signature && present secret' then webhook_error
           else Http.status_send 400 "Missing signature or webhook secret"
       end;
     queries := [];
     payments := t |}.
Proof.
  unfold CJS.post_webhook.
  destruct (CJS.express_json raw) as [parsed|] eqn:Hparse; [|reflexivity].
  destruct (cjs_update_refuses_parsed raw parsed Hparse) as [e He].
  unfold CJS.webhook, CJS.webhook_try. cbn [CJS.signature_header CJS.body].
  rewrite He. unfold present.
  destruct signature as [sg|]; [|reflexivity].
  destruct secret' as [key|]; [|now rewrite andb_false_r].
  destruct (String.eqb sg ""); [reflexivity|].
  destruct (String.eqb key ""); reflexivity.
Qed.

(** C10. Over HTTP the CommonJS server records no event without a payment
    entity. [failed_raw] is a JSON object with an [id], an [event] and no
    [payload.payment.entity], and [failed_signature] is the HMAC-SHA256 of
    its bytes under [secret].  [express.json()] (line 22) has read the body
    before the route's raw parser (line 73) and the handler run, so
    [hmac.update] is handed the parsed object and throws: the answer is 500
    "Webhook error", no query is issued and the table is as it was. *)
Theorem commonjs_route_drops_signed_event now t :
  Crypto.createHmac_sha256_hex secret failed_raw = failed_signature
  /\ CJS.express_json failed_raw = Some failed_event
  /\ entity_of failed_event = VUndefined
  /\ CJS.post_webhook (Some secret) (Some failed_signature) failed_raw now t
     = {| response := Http.status_send 500 "Webhook error"; queries := []; payments := t |}.
Proof.
  assert (Hparse : CJS.express_json failed_raw = Some failed_event)
    by (vm_compute; reflexivity).
  split; [vm_compute; reflexivity|]. split; [exact Hparse|]. split; [reflexivity|].
  rewrite cjs_post_webhook_cases, Hparse. reflexivity.
Qed.

End CommonJsWebhook.

(** ** Instances *)

Section Instances.

Import JS App Spec Sample.
Local Open Scope string_scope.

Lemma webhook_idempotent_witness :
  let h := CJS.webhook (Some secret) (cjs_request scenario_signature scenario_raw) in
  let h' := ESM.webhook (Some secret) (esm_request scenario_signature scenario_event) in
  (handler h /\ handler h' /\ Store.unique []
   /\ response (h now []) = webhook_ok /\ bound_event_id (h now []) = Some "evt_1"
   /\ response (h' now []) = webhook_ok /\ bound_event_id (h' now []) = Some "evt_1")
  /\ (List.length (Store.rows_of "evt_1" (payments (h now []))) = 1%nat
      /\ (forall now', response (h now' (payments (h now []))) = webhook_ok
                       /\ payments (h now' (payments (h now []))) = payments (h now []))
      /\ (forall times, redeliver h times (payments (h now [])) = payments (h now []))
      /\ (forall t2, deliveries (payments (h now [])) t2 ->
                     List.length (Store.rows_of "evt_1" t2) = 1%nat))
  /\ (List.length (Store.rows_of "evt_1" (payments (h' now []))) = 1%nat
      /\ (forall now', response (h' now' (payments (h' now []))) = webhook_ok
                       /\ payments (h' now' (payments (h' now []))) = payments (h' now []))
      /\ (forall times, redeliver h' times (payments (h' now [])) = payments (h' now []))
      /\ (forall t2, deliveries (payments (h' now [])) t2 ->
                     List.length (Store.rows_of "evt_1" t2) = 1%nat)).
Proof.
  intros h h'.
  assert (Hh : handler h) by apply handler_cjs.
  assert (Hh' : handler h') by apply handler_esm.
  assert (Hu : Store.unique []) by exact I.
  assert (Hok : response (h now []) = webhook_ok) by (vm_compute; reflexivity).
  assert (Hk : bound_event_id (h now []) = Some "evt_1") by (vm_compute; reflexivity).
  assert (Hok' : response (h' now []) = webhook_ok) by (vm_compute; reflexivity).
  assert (Hk' : bound_event_id (h' now []) = Some "evt_1") by (vm_compute; reflexivity).
  split; [repeat apply conj; assumption|]. split.
  - exact (webhook_idempotent h now [] "evt_1" Hh Hu Hok Hk).
  - exact (webhook_idempotent h' now [] "evt_1" Hh' Hu Hok' Hk').
Defined.

Lemma webhook_frame_witness :
  let h := CJS.webhook (Some secret) (cjs_request scenario_signature scenario_raw) in
  let h' := ESM.webhook (Some secret) (esm_request spaced_signature scenario_event) in
  let stored :=
    {| Store.event_id := Some "evt_1"; Store.status := Some "captured";
       Store.amount := Some "50000"; Store.currency := Some "INR";
       Store.email := Some "a@b.com"; Store.contact := Some "+911234567890";
       Store.created_at := now |} in
  (handler h /\ handler h')
  /\ (response (h now []) = webhook_ok /\ payments (h now []) = [stored])
  /\ (response (h (now + 1) [stored]) = webhook_ok /\ payments (h (now + 1) [stored]) = [stored])
  /\ (response (h' now [stored]) <> webhook_ok /\ payments (h' now [stored]) = [stored]).
Proof.
  intros h h' stored.
  assert (Hh : handler h) by apply handler_cjs.
  assert (Hh' : handler h') by apply handler_esm.
  split; [split; assumption|].
  assert (Hok : forall n t, response (h n t) = webhook_ok).
  { intros n t. unfold h, CJS.webhook.
    replace (CJS.webhook_try (Some secret) (cjs_request scenario_signature scenario_raw))
      with (@Ok (Http.response * list (list value))
              (webhook_ok, [[ VString "evt_1"; VString "captured";
                              VNumber (Num.of_Z 50000); VString "INR";
                              VString "a@b.com"; VString "+911234567890" ]]))
      by (vm_compute; reflexivity).
    reflexivity. }
  assert (Hno : response (h' now [stored]) <> webhook_ok) by (vm_compute; discriminate).
  split; [|split].
  - split; [apply Hok|].
    destruct (webhook_frame h now [] Hh) as [Hyes _].
    destruct (Hyes (Hok _ _)) as (ps & Hq & Hp & _). rewrite Hp.
    assert (E : queries (h now []) = [[ VString "evt_1"; VString "captured";
                                        VNumber (Num.of_Z 50000); VString "INR";
                                        VString "a@b.com"; VString "+911234567890" ]])
      by (vm_compute; reflexivity).
    rewrite E in Hq. injection Hq as <-. vm_compute. reflexivity.
  - split; [apply Hok|]. vm_compute. reflexivity.
  - split; [exact Hno|].
    destruct (webhook_frame h' now [stored] Hh') as [_ Hrest].
    exact (proj2 (Hrest Hno)).
Defined.

Lemma numeric_string_amount_accepted_witness :
  let body := amount_only (VString "100") in
  (get_opt body "amount" = VString "100"
   /\ Num.ltb Num.zero (StringToNumber "100") = true)
  /\ order_response (CJS.create_order accepting now body) <> invalid_amount
  /\ gateway_calls (CJS.create_order accepting now body)
     = [ {| amount := Num.of_Z 10000; currency := VString "INR";
            receipt := "receipt_1700000000000" |} ].
Proof.
  intros body.
  assert (H1 : get_opt body "amount" = VString "100") by reflexivity.
  assert (H2 : Num.ltb Num.zero (StringToNumber "100") = true) by (vm_compute; reflexivity).
  split; [split; assumption|].
  destruct (numeric_string_amount_accepted accepting now body "100" H1 H2) as [Hr Hc].
  split; [exact Hr|]. rewrite Hc. vm_compute. reflexivity.
Defined.

End Instances.

(** * Further properties of the handlers *)

(** ** The table under any number of deliveries *)

Section TableGrowth.

Import JS App Spec.

(** X1. Whatever webhook requests are delivered, to either server and in
    any order, the table only grows at its end: the rows it held are all
    still there, unchanged and in place, and if no two rows shared an event
    id before, none do after. *)
Theorem deliveries_only_append t t' :
  deliveries t t' ->
  (exists added, t' = t ++ added)
  /\ (Store.unique t -> Store.unique t').
Proof.
  induction 1 as [t|h now t t' Hh _ [[added IHa] IHu]].
  - split; [exists []; now rewrite app_nil_r | auto].
  - destruct (handler_tidy h Hh) as (a & Ha & Hrun). rewrite Hrun in *.
    split.
    + destruct (run_cases a now t Ha) as [(_ & ps & _ & _ & Hp)|(_ & _ & Hp)];
        rewrite Hp in IHa.
      * destruct (insert_cases now ps t) as [[_ E]|[_ E]]; rewrite E in IHa.
        -- now exists added.
        -- exists (row_of now ps :: added). now rewrite IHa, <- app_assoc.
      * now exists added.
    + intros Hu. apply IHu. rewrite <- Hrun. now apply delivery_keeps_unique.
Qed.

Lemma deliveries_only_append_witness :
  let h := CJS.webhook (Some Sample.secret)
             (Sample.cjs_request Sample.scenario_signature Sample.scenario_raw) in
  let h' := ESM.webhook (Some Sample.secret)
              (Sample.esm_request Sample.failed_signature Sample.failed_event) in
  let t' := payments (h' (Sample.now + 1) (payments (h Sample.now []))) in
  deliveries [] t'
  /\ List.map Store.event_id t' = [Some "evt_1"%string; Some "evt_2"%string]
  /\ (exists added, t' = [] ++ added)
  /\ (Store.unique [] -> Store.unique t').
Proof.
  intros h h' t'.
  assert (Hd : deliveries [] t').
  { apply deliveries_more with (h := h) (now := Sample.now); [apply handler_cjs|].
    apply deliveries_more with (h := h') (now := Sample.now + 1); [apply handler_esm|].
    apply deliveries_none. }
  split; [exact Hd|]. split; [vm_compute; reflexivity|].
  exact (deliveries_only_append [] t' Hd).
Defined.

End TableGrowth.

(** ** The CommonJS webhook handler, case by case *)

Section CommonJsCases.

Import JS App Spec Sample.
Local Open Scope string_scope.

(** X2. Over HTTP, for a body of type [application/json], the CommonJS
    server never acknowledges a webhook and never touches the table,
    whatever the secret, the signature header and the body are, the right
    signature included: [express.json()] has read the body first, so what
    the handler finds in [req.body] is never the [Buffer] that [hmac.update]
    could take.  The status is never 200, no query is issued, and the table
    is as it was. *)
Theorem commonjs_route_never_stores secret' signature raw now t :
  let o := CJS.post_webhook secret' signature raw now t in
  Http.status (response o) <> 200 /\ queries o = [] /\ payments o = t.
Proof.
  intros o. subst o. rewrite cjs_post_webhook_cases. cbn [response queries payments].
  split; [|split; reflexivity].
  destruct (CJS.express_json raw); [|discriminate].
  destruct (present signature && present secret'); discriminate.
Qed.

Lemma cjs_missing_credentials_witness :
  (CJS.signature_header {| CJS.signature_header := None; CJS.body := CJS.Buffer scenario_raw |}
   = None)
  /\ CJS.webhook (Some secret)
       {| CJS.signature_header := None; CJS.body := CJS.Buffer scenario_raw |} now []
     = {| response := Http.status_send 400 "Missing signature or webhook secret";
          queries := []; payments := [] |}
  /\ CJS.webhook (Some "") (cjs_request scenario_signature scenario_raw) now []
     = {| response := Http.status_send 400 "Missing signature or webhook secret";
          queries := []; payments := [] |}.
Proof.
  split; [reflexivity|]. split.
  - apply cjs_missing_credentials. right. right. left. reflexivity.
  - apply cjs_missing_credentials. right. left. reflexivity.
Defined.

Lemma cjs_parsed_body_is_answered_500_witness :
  (secret <> "" /\ scenario_signature <> "" /\ forall s, scenario_event <> VString s)
  /\ CJS.webhook (Some secret)
       {| CJS.signature_header := Some scenario_signature;
          CJS.body := CJS.Parsed scenario_event |} now []
     = {| response := Http.status_send 500 "Webhook error"; queries := []; payments := [] |}.
Proof.
  assert (H1 : secret <> "") by discriminate.
  assert (H2 : scenario_signature <> "") by discriminate.
  assert (H3 : forall s, scenario_event <> VString s) by discriminate.
  split; [repeat apply conj; assumption|].
  exact (cjs_parsed_body_is_answered_500 secret scenario_signature scenario_event now []
           H1 H2 H3).
Defined.

End CommonJsCases.

(** ** The webhook handler of [server.js], case by case *)

Section ServerJsCases.

Import JS App Spec Sample More.
Local Open Scope string_scope.

(** the handler on a body that [JSON.stringify] prints as [text] *)
Lemma esm_webhook_checks_printed_body key signature body text :
  JSON.stringify body = Some text ->
  ESM.webhook_try (Some key) {| ESM.signature_header := signature; ESM.body := body |} =
  if match signature with
     | Some s => String.eqb s (Crypto.createHmac_sha256_hex key text)
     | None => false
     end
  then
    JS.bind (get body "payload") (fun payload =>
    let paymentEntity := get_opt (get_opt payload "payment") "entity" in
    JS.bind (get body "id") (fun id =>
    Ok (webhook_ok,
        [[ id;
           or_else (get_opt paymentEntity "status") (VString "created");
           or_else (get_opt paymentEntity "amount") (VNumber Num.zero);
           or_else (get_opt paymentEntity "currency") (VString "INR");
           or_else (get_opt paymentEntity "email") VNull;
           or_else (get_opt paymentEntity "contact") VNull ]])))
  else Ok (invalid_signature, []).
Proof.
  intros Hprint. unfold ESM.webhook_try. cbn [ESM.signature_header ESM.body].
  rewrite Hprint. cbn [ESM.createHmac_key ESM.update JS.bind].
  destruct signature as [s|]; [|reflexivity].
  destruct (String.eqb s _); reflexivity.
Qed.

(** X7. With a secret configured (the empty string included: [server.js]
    has no guard against it), the handler of [server.js] lets a request past
    the signature check exactly when the header is the hex HMAC-SHA256 of
    [JSON.stringify(req.body)]; a missing header and any other header are
    answered 400 "Invalid signature" without a query. *)
Theorem server_js_signature_decides key signature body text now t :
  JSON.stringify body = Some text ->
  let o := ESM.webhook (Some key)
             {| ESM.signature_header := signature; ESM.body := body |} now t in
  (signature = Some (Crypto.createHmac_sha256_hex key text)
   <-> response o <> invalid_signature)
  /\ (signature <> Some (Crypto.createHmac_sha256_hex key text) ->
      o = {| response := invalid_signature; queries := []; payments := t |}).
Proof.
  intros Hprint o. subst o. unfold ESM.webhook.
  rewrite (esm_webhook_checks_printed_body _ _ _ _ Hprint).
  destruct signature as [s|].
  - destruct (String.eqb_spec s (Crypto.createHmac_sha256_hex key text)) as [->|Hne].
    + split; [split; [intros _|reflexivity]|intros H; now destruct H].
      unfold JS.bind. repeat break_match; cbn [run_webhook response]; discriminate.
    + split; [split|reflexivity].
      * intros [= E]. contradiction.
      * intros H. now destruct H.
  - split; [split|reflexivity].
    + discriminate.
    + intros H. now destruct H.
Qed.

Lemma server_js_signature_decides_witness :
  JSON.stringify scenario_event = Some scenario_raw
  /\ response (ESM.webhook (Some secret) (esm_request scenario_signature scenario_event) now [])
     <> invalid_signature
  /\ ESM.webhook (Some secret)
       {| ESM.signature_header := None; ESM.body := scenario_event |} now []
     = {| response := invalid_signature; queries := []; payments := [] |}
  /\ response (ESM.webhook (Some "")
                 (esm_request "18d664b9d737652306e74b0bc898a114b0d4488637182e8c4d1472f0af11c206"
                    (VObject [("id", VString "evt_1")])) now [])
     = webhook_ok.
Proof.
  assert (H : JSON.stringify scenario_event = Some scenario_raw) by (vm_compute; reflexivity).
  split; [exact H|].
  destruct (server_js_signature_decides secret (Some scenario_signature) scenario_event
              scenario_raw now [] H) as [[Hyes _] _].
  destruct (server_js_signature_decides secret None scenario_event scenario_raw now [] H)
    as [_ Hno].
  split; [|split].
  - apply Hyes. vm_compute. reflexivity.
  - apply Hno. discriminate.
  - vm_compute. reflexivity.
Defined.

(** X8. What [server.js] binds for a body that passes its check and is not
    [null]: the top-level [id], and of [payload.payment.entity] the status,
    amount, currency, email and contact, each replaced when it is missing or
    falsy by "created", 0, "INR", [null] and [null]. *)
Theorem server_js_stored_fields key body text now t :
  JSON.stringify body = Some text -> body <> VNull ->
  queries (ESM.webhook (Some key)
             (esm_request (Crypto.createHmac_sha256_hex key text) body) now t)
  = [[ get_opt body "id";
       or_else (get_opt (entity_of body) "status") (VString "created");
       or_else (get_opt (entity_of body) "amount") (VNumber Num.zero);
       or_else (get_opt (entity_of body) "currency") (VString "INR");
       or_else (get_opt (entity_of body) "email") VNull;
       or_else (get_opt (entity_of body) "contact") VNull ]].
Proof.
  intros Hprint Hnull.
  assert (Hlive : nullish body = false).
  { destruct body; try reflexivity; [|contradiction].
    vm_compute in Hprint. discriminate Hprint. }
  unfold ESM.webhook, esm_request.
  rewrite (esm_webhook_checks_printed_body _ _ _ _ Hprint), String.eqb_refl.
  rewrite !(get_defined body) by exact Hlive. reflexivity.
Qed.

Lemma server_js_stored_fields_witness :
  (JSON.stringify failed_event = Some failed_raw /\ failed_event <> VNull)
  /\ queries (ESM.webhook (Some secret) (esm_request failed_signature failed_event) now [])
     = [[ VString "evt_2"; VString "created"; VNumber Num.zero; VString "INR";
          VNull; VNull ]].
Proof.
  assert (H1 : JSON.stringify failed_event = Some failed_raw) by (vm_compute; reflexivity).
  assert (H2 : failed_event <> VNull) by discriminate.
  split; [split; assumption|].
  replace failed_signature with (Crypto.createHmac_sha256_hex secret failed_raw)
    by (vm_compute; reflexivity).
  rewrite (server_js_stored_fields secret failed_event failed_raw now [] H1 H2).
  reflexivity.
Defined.

End ServerJsCases.

(** ** Order creation, both files *)

Section OrderCases.

Import JS App Spec Sample More.
Local Open Scope string_scope.

(** the ways a [create-order] run can go: "Invalid amount"; an exception
    before the gateway is reached, from a missing body or from an amount that
    cannot be made a number; or one call of the gateway *)
Lemma order_shape handle razorpay now body :
  order_handler handle ->
  handle razorpay now body = {| order_response := invalid_amount; gateway_calls := [] |}
  \/ (exists err,
        (nullish body = true \/ ToNumber (get_opt body "amount") = Throw err)
        /\ handle razorpay now body
           = {| order_response := order_failed err; gateway_calls := [] |})
  \/ (exists options,
        handle razorpay now body
        = {| order_response := match razorpay options with
                               | Ok order => order_created order
                               | Throw err => order_failed err
                               end;
             gateway_calls := [options] |}).
Proof.
  intros [|]; destruct body as [| |b|x|s|elems|props];
    try (left; reflexivity);
    try (right; left; eexists; split; [left; reflexivity|reflexivity]).
  - rewrite cjs_create_order_object. cbn [get_opt].
    destruct (ToNumber (lookup "amount" props)) as [a|e].
    + destruct (Num.ltb _ _); [right; right; eexists; reflexivity|left; reflexivity].
    + right; left. exists e. split; [right; reflexivity|reflexivity].
  - rewrite esm_create_order_object. cbn [get_opt].
    destruct (ToNumber (lookup "amount" props)) as [a|e].
    + destruct (_ || _); [left; reflexivity|right; right; eexists; reflexivity].
    + right; left. exists e. split; [right; reflexivity|reflexivity].
Qed.

(** X10. Either [create-order] handler, on any body and with any gateway:
    it calls the gateway at most once; it answers 400 only with "Invalid
    amount" and then has not called it; it answers 200 only with the order
    the gateway resolved with; and it answers 500 either without a call,
    with the message of the exception thrown before the gateway was reached
    (there was no body to read, or the amount could not be made a number),
    or after the one call, with the message of the gateway's rejection. *)
Theorem create_order_outcomes handle razorpay now body :
  order_handler handle ->
  let o := handle razorpay now body in
  (List.length (gateway_calls o) <= 1)%nat
  /\ (Http.status (order_response o) = 400 ->
      order_response o = invalid_amount /\ gateway_calls o = [])
  /\ (Http.status (order_response o) = 200 ->
      exists options order,
        gateway_calls o = [options] /\ razorpay options = Ok order
        /\ order_response o = order_created order)
  /\ (Http.status (order_response o) = 500 ->
      (gateway_calls o = []
       /\ exists err,
            order_response o = order_failed err
            /\ (nullish body = true \/ ToNumber (get_opt body "amount") = Throw err))
      \/ exists options err,
           gateway_calls o = [options] /\ razorpay options = Throw err
           /\ order_response o = order_failed err).
Proof.
  intros Hh o. subst o.
  destruct (order_shape handle razorpay now body Hh)
    as [-> | [[err [Hwhy ->]] | [options ->]]];
    cbn [order_response gateway_calls List.length].
  - split; [lia|]. split; [now split|]. split; intros H; discriminate H.
  - split; [lia|]. split; [intros H; discriminate H|].
    split; [intros H; discriminate H|]. intros _. left. split; [reflexivity|].
    exists err. now split.
  - split; [lia|].
    destruct (razorpay options) as [order|err] eqn:Hgw.
    + split; [intros H; discriminate H|]. split; [|intros H; discriminate H].
      intros _. exists options, order. now rewrite Hgw.
    + split; [intros H; discriminate H|]. split; [intros H; discriminate H|].
      intros _. right. exists options, err. now rewrite Hgw.
Qed.

Lemma create_order_outcomes_witness :
  let paid := amount_only (VNumber (Num.of_Z 100)) in
  let odd := amount_only (VObject [("toString", VNull)]) in
  (order_handler CJS.create_order /\ order_handler ESM.create_order
   /\ Http.status (order_response (CJS.create_order accepting now paid)) = 200
   /\ Http.status (order_response (ESM.create_order accepting now odd)) = 500)
  /\ (exists options order,
        gateway_calls (CJS.create_order accepting now paid) = [options]
        /\ accepting options = Ok order
        /\ order_response (CJS.create_order accepting now paid) = order_created order)
  /\ gateway_calls (ESM.create_order accepting now odd) = []
  /\ order_response (ESM.create_order accepting now odd) = order_failed not_primitive
  /\ ToNumber (get_opt odd "amount") = Throw not_primitive.
Proof.
  intros paid odd.
  assert (Hc : order_handler CJS.create_order) by apply order_handler_cjs.
  assert (He : order_handler ESM.create_order) by apply order_handler_esm.
  assert (H200 : Http.status (order_response (CJS.create_order accepting now paid)) = 200)
    by (vm_compute; reflexivity).
  assert (H500 : Http.status (order_response (ESM.create_order accepting now odd)) = 500)
    by (vm_compute; reflexivity).
  split; [repeat apply conj; assumption|].
  destruct (create_order_outcomes CJS.create_order accepting now paid Hc) as (_ & _ & Hok & _).
  destruct (create_order_outcomes ESM.create_order accepting now odd He) as (_ & _ & _ & Hko).
  split; [exact (Hok H200)|].
  destruct (Hko H500) as [[Hnone _]|(options & err & Hsome & Hgw & _)];
    [|discriminate Hgw].
  split; [exact Hnone|]. split; vm_compute; reflexivity.
Defined.

(** X11. The CommonJS guard is the stricter one, on the amount of any
    object body: what [server.js] answers with "Invalid amount" gets the
    same answer from the CommonJS handler; when the CommonJS handler calls
    the gateway, so does [server.js], with the same currency and receipt,
    the CommonJS amount being [Math.round] of the amount of [server.js]; and
    an amount that cannot be made a number gets the same 500, without a
    call, from both. *)
Theorem commonjs_guard_is_stricter razorpay razorpay' now props :
  let cjs := CJS.create_order razorpay now (VObject props) in
  let esm := ESM.create_order razorpay' now (VObject props) in
  (order_response esm = invalid_amount -> order_response cjs = invalid_amount)
  /\ (forall sent',
        gateway_calls cjs = [sent'] ->
        exists sent,
          gateway_calls esm = [sent]
          /\ sent' = {| amount := Num.round (amount sent); currency := currency sent;
                        receipt := receipt sent |})
  /\ (forall e,
        ToNumber (lookup "amount" props) = Throw e ->
        cjs = {| order_response := order_failed e; gateway_calls := [] |}
        /\ esm = {| order_response := order_failed e; gateway_calls := [] |}).
Proof.
  intros cjs esm. subst cjs esm.
  rewrite cjs_create_order_object, esm_create_order_object.
  destruct (ToNumber (lookup "amount" props)) as [x|e] eqn:E.
  - destruct (Num.ltb Num.zero x) eqn:Hpos.
    + destruct (positive_number x Hpos) as (_ & _ & Hle).
      assert (Ht : truthy (lookup "amount" props) = true).
      { destruct (truthy (lookup "amount" props)) eqn:Ht; [reflexivity|].
        destruct (falsy_number _ Ht) as (x' & E' & Hx').
        rewrite E in E'. injection E' as <-. rewrite Hpos in Hx'. discriminate Hx'. }
      rewrite Ht, Hle. cbn [negb orb]. cbv zeta. cbn [order_response gateway_calls].
      split; [destruct (razorpay' _); intros H; discriminate H|].
      split; [|intros e H; discriminate H].
      intros sent' [= <-]. eexists. split; reflexivity.
    + cbn [order_response gateway_calls]. split; [reflexivity|].
      split; [intros sent' H; discriminate H|intros e H; discriminate H].
  - cbn [order_response gateway_calls]. split; [intros H; discriminate H|].
    split; [intros sent' H; discriminate H|].
    intros e' [= <-]. split; reflexivity.
Qed.

(** X12. Without a body ([req.body] is [undefined] or [null]) either
    [create-order] handler answers 500 and does not call the gateway. *)
Theorem create_order_without_body handle razorpay now body :
  order_handler handle -> nullish body = true ->
  Http.status (order_response (handle razorpay now body)) = 500
  /\ gateway_calls (handle razorpay now body) = [].
Proof.
  intros [|] Hbody; destruct body; try discriminate Hbody; split; reflexivity.
Qed.

Lemma create_order_without_body_witness :
  (order_handler ESM.create_order /\ nullish VUndefined = true)
  /\ Http.status (order_response (ESM.create_order accepting now VUndefined)) = 500
  /\ gateway_calls (ESM.create_order accepting now VUndefined) = [].
Proof.
  assert (Hh : order_handler ESM.create_order) by apply order_handler_esm.
  assert (Hb : nullish VUndefined = true) by reflexivity.
  split; [split; assumption|].
  exact (create_order_without_body ESM.create_order accepting now VUndefined Hh Hb).
Defined.

End OrderCases.

(** ** Receipts *)

Section Receipts.

Import JS App Spec Sample More.
Local Open Scope string_scope.

Lemma code_char (x : Z) : 0 <= x < 256 -> Text.code (Text.char x) = x.
Proof.
  intros Hx. unfold Text.code, Text.char.
  rewrite nat_ascii_embedding by lia. lia.
Qed.

Lemma digits_fuel_value (fuel : nat) :
  forall n acc, 0 <= n < 2 ^ Z.of_nat fuel ->
    fold_left (fun a c => 10 * a + (Text.code c - 48)) (Text.digits_fuel fuel n acc) 0
    = fold_left (fun a c => 10 * a + (Text.code c - 48)) acc n.
Proof.
  induction fuel as [|fuel IH]; intros n acc Hn.
  - simpl in *. now replace n with 0 by lia.
  - cbn [Text.digits_fuel]. pose proof (Z.mod_pos_bound n 10 eq_refl) as Hmod.
    destruct (Z.ltb_spec n 10) as [Hsmall|Hbig].
    + cbn [fold_left]. rewrite code_char by lia. f_equal.
      rewrite Z.mod_small by lia. lia.
    + rewrite IH.
      * cbn [fold_left]. rewrite code_char by lia.
        f_equal. pose proof (Z.div_mod n 10). lia.
      * rewrite Nat2Z.inj_succ, Z.pow_succ_r in Hn by lia.
        split; [apply Z.div_pos; lia|].
        apply Z.div_lt_upper_bound; lia.
Qed.

(** reading back the digits of a non-negative integer gives the integer *)
Lemma digits_value (n : Z) : 0 <= n -> decimal_value (Text.digits n) = n.
Proof.
  intros Hn. unfold decimal_value, Text.digits. rewrite digits_fuel_value; [reflexivity|].
  split; [exact Hn|].
  rewrite Nat2Z.inj_succ, Z2Nat.id by apply Z.log2_nonneg.
  destruct (Z.eq_dec n 0) as [->|Hne]; [reflexivity|].
  apply Z.log2_spec. lia.
Qed.

Lemma string_of_Z_injective (n m : Z) :
  0 <= n -> 0 <= m -> Text.string_of_Z n = Text.string_of_Z m -> n = m.
Proof.
  intros Hn Hm. unfold Text.string_of_Z, Text.text.
  destruct (Z.ltb_spec n 0); [lia|]. destruct (Z.ltb_spec m 0); [lia|].
  intros E. apply (f_equal list_ascii_of_string) in E.
  rewrite !list_ascii_of_string_of_list_ascii in E.
  rewrite <- (digits_value n Hn), <- (digits_value m Hm). now rewrite E.
Qed.

Lemma sent_receipt handle razorpay now body sent :
  order_handler handle ->
  In sent (gateway_calls (handle razorpay now body)) ->
  receipt sent = "receipt_" ++ Text.string_of_Z now.
Proof.
  intros [|]; destruct body as [| |b|x|s|elems|props]; try (intros []).
  - rewrite cjs_create_order_object.
    destruct (ToNumber _); [|intros []]. destruct (Num.ltb _ _); [|intros []].
    intros [<-|[]]. reflexivity.
  - rewrite esm_create_order_object.
    destruct (ToNumber _); [|intros []]. destruct (_ || _); [intros []|].
    intros [<-|[]]. reflexivity.
Qed.

(** X13. The receipt of an order names the time of the request and nothing
    else: two gateway calls, of either handler and for any bodies, carry the
    same receipt exactly when they were made at the same clock reading
    ([Date.now()], in milliseconds). *)
Theorem receipt_names_the_time handle handle' razorpay razorpay' now now' body body' sent sent' :
  order_handler handle -> order_handler handle' ->
  0 <= now -> 0 <= now' ->
  In sent (gateway_calls (handle razorpay now body)) ->
  In sent' (gateway_calls (handle' razorpay' now' body')) ->
  (receipt sent = receipt sent' <-> now = now').
Proof.
  intros Hh Hh' Hn Hn' Hs Hs'.
  rewrite (sent_receipt _ _ _ _ _ Hh Hs), (sent_receipt _ _ _ _ _ Hh' Hs').
  split; [|now intros ->].
  intros E. cbn [append] in E. injection E as E.
  now apply string_of_Z_injective.
Qed.

Lemma receipt_names_the_time_witness :
  let o := CJS.create_order accepting now (amount_only (VNumber (Num.of_Z 100))) in
  let o' := ESM.create_order accepting (now + 1) (amount_only (VString "7")) in
  let sent := {| amount := Num.of_Z 10000; currency := VString "INR";
                 receipt := "receipt_1700000000000" |} in
  let sent' := {| amount := Num.of_Z 700; currency := VString "INR";
                  receipt := "receipt_1700000000001" |} in
  (order_handler CJS.create_order /\ order_handler ESM.create_order
   /\ 0 <= now /\ 0 <= now + 1
   /\ In sent (gateway_calls o) /\ In sent' (gateway_calls o'))
  /\ (receipt sent = receipt sent' <-> now = now + 1).
Proof.
  intros o o' sent sent'.
  assert (H1 : order_handler CJS.create_order) by apply order_handler_cjs.
  assert (H2 : order_handler ESM.create_order) by apply order_handler_esm.
  assert (H3 : 0 <= now) by (vm_compute; discriminate).
  assert (H4 : 0 <= now + 1) by (vm_compute; discriminate).
  assert (H5 : In sent (gateway_calls o)) by (left; vm_compute; reflexivity).
  assert (H6 : In sent' (gateway_calls o')) by (left; vm_compute; reflexivity).
  split; [repeat apply conj; assumption|].
  exact (receipt_names_the_time CJS.create_order ESM.create_order accepting accepting
           now (now + 1) _ _ sent sent' H1 H2 H3 H4 H5 H6).
Defined.

End Receipts.

(** ** The length of a signature *)

Section SignatureLength.

Import JS App Spec Sample More.
Local Open Scope string_scope.

Lemma be_bytes_length (n : nat) (x : Z) : List.length (Crypto.be_bytes n x) = n.
Proof.
  revert x. induction n as [|n IH]; intros x; simpl; [reflexivity|].
  rewrite length_app, IH. simpl. lia.
Qed.

Lemma flat_map_constant_length {A B : Type} (f : A -> list B) (k : nat) (l : list A) :
  (forall a, List.length (f a) = k) ->
  List.length (flat_map f l) = (k * List.length l)%nat.
Proof.
  intros Hf. induction l as [|a l IH]; simpl; [lia|].
  rewrite length_app, Hf, IH. lia.
Qed.

Lemma sha256_length (msg : Crypto.bytes) : List.length (Crypto.sha256 msg) = 32%nat.
Proof.
  unfold Crypto.sha256.
  rewrite (flat_map_constant_length _ 4) by (intros a; apply be_bytes_length).
  now rewrite sha256_state_length.
Qed.

Lemma text_length (l : list ascii) : String.length (Text.text l) = List.length l.
Proof. induction l as [|c l IH]; simpl; [reflexivity|now rewrite IH]. Qed.

(** a hex digest has 64 characters *)
Lemma digest_length (key data : string) :
  String.length (Crypto.createHmac_sha256_hex key data) = 64%nat.
Proof.
  unfold Crypto.createHmac_sha256_hex, Crypto.hmac_sha256, Crypto.hex.
  rewrite text_length, (flat_map_constant_length _ 2) by reflexivity.
  now rewrite sha256_length.
Qed.

(** X14. A request to [server.js] whose signature header is missing, or is
    not 64 characters long, never opens the way to the table, whatever the
    secret (any string, the empty one included) and the parsed body are: the
    handler answers 400 "Invalid signature", issues no query and leaves the
    table as it was. *)
Theorem short_signature_is_rejected key signature body text now t :
  (forall s, signature = Some s -> String.length s <> 64%nat) ->
  JSON.stringify body = Some text ->
  ESM.webhook (Some key) {| ESM.signature_header := signature; ESM.body := body |} now t
  = {| response := invalid_signature; queries := []; payments := t |}.
Proof.
  intros Hlen Hprint. unfold ESM.webhook.
  rewrite (esm_webhook_checks_printed_body _ _ _ _ Hprint).
  destruct signature as [s|]; [|reflexivity].
  destruct (String.eqb_spec s (Crypto.createHmac_sha256_hex key text)) as [->|_];
    [|reflexivity].
  destruct (Hlen _ eq_refl). apply digest_length.
Qed.

Lemma short_signature_is_rejected_witness :
  ((forall s, Some "a6ecfadac966cff1" = Some s -> String.length s <> 64%nat)
   /\ JSON.stringify scenario_event = Some scenario_raw)
  /\ ESM.webhook (Some secret) (esm_request "a6ecfadac966cff1" scenario_event) now []
     = {| response := invalid_signature; queries := []; payments := [] |}.
Proof.
  assert (H1 : forall s, Some "a6ecfadac966cff1" = Some s -> String.length s <> 64%nat)
    by (intros s [= <-]; discriminate).
  assert (H2 : JSON.stringify scenario_event = Some scenario_raw)
    by (vm_compute; reflexivity).
  split; [split; assumption|].
  exact (short_signature_is_rejected secret (Some "a6ecfadac966cff1") scenario_event
           scenario_raw now [] H1 H2).
Defined.

End SignatureLength.

(** ** The amounts [server.js] lets through *)

Section ServerJsAmounts.

Import JS App Spec Sample More.
Local Open Scope string_scope.

Lemma not_below_zero (x : Num.number) :
  Num.leb x Num.zero = false <-> Num.ltb Num.zero x = true \/ Num.is_nan x = true.
Proof.
  destruct x as [s|s| |s m e]; try destruct s; cbn; intuition discriminate.
Qed.

(** X16. [server.js] calls the gateway for the amount of an object body
    exactly when the amount can be made a number and that number is above
    zero, or the amount is truthy and the number is NaN (a string such as
    "abc", a plain object, an array of several elements); in the second case
    the gateway is called with the amount NaN.  An amount that cannot be
    made a number is answered 500 without a call. *)
Theorem server_js_amount_hole razorpay now props :
  let v := lookup "amount" props in
  let o := ESM.create_order razorpay now (VObject props) in
  (gateway_calls o <> []
   <-> exists x, ToNumber v = Ok x
                 /\ (Num.ltb Num.zero x = true \/ (truthy v = true /\ Num.is_nan x = true)))
  /\ (forall x, ToNumber v = Ok x -> truthy v = true -> Num.is_nan x = true ->
      List.map amount (gateway_calls o) = [Num.NaN])
  /\ (forall e, ToNumber v = Throw e ->
      o = {| order_response := order_failed e; gateway_calls := [] |}).
Proof.
  intros v o. subst v o. rewrite esm_create_order_object.
  set (v := lookup "amount" props).
  destruct (ToNumber v) as [x|e] eqn:E.
  - pose proof (not_below_zero x) as Hzero.
    destruct (truthy v) eqn:Htruthy; cbn [negb orb].
    + destruct (Num.leb x Num.zero) eqn:Hle; cbv zeta; cbn [order_response gateway_calls].
      * split; [split|].
        -- intros H. now destruct H.
        -- intros (x' & [= <-] & [Hpos|[_ Hnan]]).
           ++ destruct (positive_number x Hpos) as (_ & _ & Hle').
              rewrite Hle in Hle'. discriminate Hle'.
           ++ destruct x; discriminate.
        -- split; [|intros e H; discriminate H].
           intros x' [= <-] _ Hnan. destruct x; discriminate.
      * split; [split|].
        -- intros _. exists x. split; [reflexivity|].
           destruct (proj1 Hzero eq_refl) as [Hpos|Hnan]; auto.
        -- intros _. discriminate.
        -- split; [|intros e H; discriminate H].
           intros x' [= <-] _ Hnan. cbn [List.map amount].
           destruct x; try discriminate. reflexivity.
    + cbn [order_response gateway_calls]. split; [split|].
      * intros H. now destruct H.
      * intros (x' & [= <-] & [Hpos|[H _]]); [|discriminate H].
        destruct (falsy_number v Htruthy) as (x' & E' & Hx').
        rewrite E in E'. injection E' as <-. rewrite Hpos in Hx'. discriminate Hx'.
      * split; [intros x' _ H; discriminate H|intros e H; discriminate H].
  - cbn [order_response gateway_calls]. split; [split|].
    + intros H. now destruct H.
    + intros (x & H & _). discriminate H.
    + split; [intros x H; discriminate H|]. intros e' [= <-]. reflexivity.
Qed.

End ServerJsAmounts.
